(** * NotaFácil chat assistant: relay, dispatcher and orchestrator

    A shallow embedding of [api/gemini-proxy.ts] (the credential-holding
    relay [handler]) and of the [Chatbot] component ([executeFunctionCall],
    the operation dispatcher, and [handleSend], the conversation
    orchestrator), followed by the properties of the specification that
    are settled on it.

    JavaScript objects are finite maps from property names to values,
    exceptions are an explicit outcome, and the calls made to the outside
    world (the invoice store's callbacks, the relay, the model provider)
    are recorded, in order, in an event log. *)

From Stdlib Require Import ZArith Lia Ascii String.
From stdpp Require Import gmap strings list fin_maps pretty.

(** ** JavaScript values and the primitives the program uses *)
Module Js.

(** JSON values, plus [undefined].  Numbers are carried as integers: the
    dispatcher never computes with a number that it receives, it only
    tests it, prints it and passes it on. *)
#[warnings="-register-all"] Inductive val : Type :=
  | VUndefined
  | VNull
  | VBool (b : bool)
  | VNum (n : Z)
  | VStr (s : string)
  | VArr (items : list val)
  | VObj (fields : gmap string val).

Abbreviation obj := (gmap string val).

(** Property read [o.k]: a missing property reads as [undefined]. *)
Definition get (o : obj) (k : string) : val := default VUndefined (o !! k).

(** ToBoolean. *)
Definition truthy (v : val) : bool :=
  match v with
  | VUndefined | VNull => false
  | VBool b => b
  | VNum n => negb (n =? 0)%Z
  | VStr s => negb (String.eqb s "")
  | VArr _ | VObj _ => true
  end.

(** [a || b]. *)
Definition or_else (a b : val) : val := if truthy a then a else b.

(** Strict equality [a === b].  Arrays and objects compare by reference;
    the two sides always come from different JSON documents here (a stored
    record and a freshly parsed argument object), so they are never the
    same reference. *)
Definition strict_eq (a b : val) : bool :=
  match a, b with
  | VUndefined, VUndefined => true
  | VNull, VNull => true
  | VBool x, VBool y => Bool.eqb x y
  | VNum x, VNum y => (x =? y)%Z
  | VStr x, VStr y => String.eqb x y
  | _, _ => false
  end.

(** ToString, as applied by template literals. *)
Fixpoint to_string (v : val) : string :=
  match v with
  | VUndefined => "undefined"
  | VNull => "null"
  | VBool true => "true"
  | VBool false => "false"
  | VNum n => pretty n
  | VStr s => s
  | VArr items =>
      let elem x := match x with VUndefined | VNull => "" | _ => to_string x end in
      (fix join (l : list val) : string :=
         match l with
         | [] => ""
         | [x] => elem x
         | x :: rest => elem x +:+ "," +:+ join rest
         end) items
  | VObj _ => "[object Object]"
  end.

(** Exceptions: an [Error] instance with its message, or any other thrown
    value. *)
Inductive exn : Type :=
  | Error (message : string)
  | NonError (thrown : val).

(** [err instanceof Error ? err.message : fallback]. *)
Definition message_or (fallback : string) (e : exn) : string :=
  match e with
  | Error m => m
  | NonError _ => fallback
  end.

(** The result of evaluating an expression that may throw. *)
Inductive outcome (A : Type) : Type :=
  | Returned (a : A)
  | Threw (e : exn).
Arguments Returned {A} a.
Arguments Threw {A} e.

Definition is_string (v : val) : bool :=
  match v with VStr _ => true | _ => false end.

(** Lower-casing of one character (ASCII letters; the identifiers of the
    application are ASCII). *)
Definition lower_ascii (c : ascii) : ascii :=
  let n := N_of_ascii c in
  if ((65 <=? n) && (n <=? 90))%N then ascii_of_N (n + 32) else c.

Fixpoint lower (s : string) : string :=
  match s with
  | EmptyString => EmptyString
  | String c rest => String (lower_ascii c) (lower rest)
  end.

(** The method call [v.toLowerCase()]: a TypeError unless [v] is a string
    (the message text is the engine's). *)
Definition toLowerCase (v : val) : outcome string :=
  match v with
  | VStr s => Returned (lower s)
  | VUndefined | VNull =>
      Threw (Error ("Cannot read properties of " +:+ to_string v +:+ " (reading 'toLowerCase')"))
  | _ => Threw (Error "toLowerCase is not a function")
  end.

(** [s.split(sep)] for a one-character separator. *)
Fixpoint split_on (sep : ascii) (s : string) : list string :=
  match s with
  | EmptyString => [EmptyString]
  | String c rest =>
      if Ascii.eqb c sep then EmptyString :: split_on sep rest
      else match split_on sep rest with
           | [] => [String c EmptyString]
           | h :: t => String c h :: t
           end
  end.

(** The method call [v.split('-')]. *)
Definition split_dash (v : val) : outcome (list string) :=
  match v with
  | VStr s => Returned (split_on "-"%char s)
  | VUndefined | VNull =>
      Threw (Error ("Cannot read properties of " +:+ to_string v +:+ " (reading 'split')"))
  | _ => Threw (Error "split is not a function")
  end.

Definition is_digit (c : ascii) : bool :=
  let n := N_of_ascii c in ((48 <=? n) && (n <=? 57))%N.

Fixpoint all_digits (s : string) : bool :=
  match s with
  | EmptyString => true
  | String c rest => is_digit c && all_digits rest
  end.

Fixpoint decimal_value (acc : Z) (s : string) : Z :=
  match s with
  | EmptyString => acc
  | String c rest => decimal_value (10 * acc + Z.of_N (N_of_ascii c) - 48)%Z rest
  end.

(** [Number(s)] on a string of decimal digits; the empty string is 0. *)
Definition Number_digits (s : string) : Z := decimal_value 0 s.

(** White space of [String.prototype.trim] (its ASCII part). *)
Definition is_space (c : ascii) : bool :=
  let n := N_of_ascii c in ((9 <=? n) && (n <=? 13) || (n =? 32))%N.

(** [!s.trim()]: the string is empty once trimmed. *)
Fixpoint blank (s : string) : bool :=
  match s with
  | EmptyString => true
  | String c rest => is_space c && blank rest
  end.

End Js.

(** ** Dates: the part of [Date] the dispatcher relies on *)
Module JsDate.
Local Open Scope Z_scope.

Definition msPerDay : Z := 86400000.

(** Day number (days since 1970-01-01) of the first day of month [m]
    (1..12) of year [y] in the proleptic Gregorian calendar, plus [d - 1]. *)
Definition days_from_civil (y m d : Z) : Z :=
  let y' := if m <=? 2 then y - 1 else y in
  let era := y' / 400 in
  let yoe := y' - era * 400 in
  let mp := if 2 <? m then m - 3 else m + 9 in
  let doy := (153 * mp + 2) / 5 + d - 1 in
  let doe := yoe * 365 + yoe / 4 - yoe / 100 + doy in
  era * 146097 + doe - 719468.

(** The calendar date (year, month 1..12, day) of a day number. *)
Definition civil_from_days (z : Z) : Z * Z * Z :=
  let z' := z + 719468 in
  let era := z' / 146097 in
  let doe := z' - era * 146097 in
  let yoe := (doe - doe / 1460 + doe / 36524 - doe / 146096) / 365 in
  let doy := doe - (365 * yoe + yoe / 4 - yoe / 100) in
  let mp := (5 * doy + 2) / 153 in
  let d := doy - (153 * mp + 2) / 5 + 1 in
  let m := if mp <? 10 then mp + 3 else mp - 9 in
  let y := yoe + era * 400 in
  (if m <=? 2 then y + 1 else y, m, d).

(** MakeDay(year, month, date) with a 0-based month that may lie outside
    0..11 and a day of the month that may lie outside the month. *)
Definition MakeDay (year month date : Z) : Z :=
  days_from_civil (year + month / 12) (month mod 12 + 1) 1 + date - 1.

(** TimeClip: a time value further than 8.64e15 ms from the epoch is
    NaN (here [None]), and the date is an Invalid Date. *)
Definition TimeClip (t : Z) : option Z :=
  if Z.abs t <=? 8640000000000000 then Some t else None.

(** [new Date(year, month, day)] in a zone whose local time is UTC plus
    [tza] milliseconds: years 0..99 mean 1900..1999. *)
Definition Date_local (tza year month day : Z) : option Z :=
  let yr := if (0 <=? year) && (year <=? 99) then 1900 + year else year in
  TimeClip (MakeDay yr month day * msPerDay - tza).

(** Local day number at the instant [now] (milliseconds since the epoch,
    UTC). *)
Definition local_day (tza now : Z) : Z := (now + tza) / msPerDay.

(** [d = new Date(); d.setHours(0, 0, 0, 0)]: local midnight of today. *)
Definition today_midnight (tza now : Z) : option Z :=
  TimeClip (local_day tza now * msPerDay - tza).

(** [a < b] on two dates: false when either is an Invalid Date. *)
Definition date_lt (a b : option Z) : bool :=
  match a, b with
  | Some x, Some y => x <? y
  | _, _ => false
  end.

Definition pad (width : nat) (n : Z) : string :=
  let s := pretty n in
  String.string_of_list_ascii (replicate (width - String.length s) "0"%char) +:+ s.

(** The date part of [toISOString()]: four-digit years for 0..9999, a sign
    and six digits otherwise. *)
Definition iso_date (day : Z) : string :=
  let '(y, m, d) := civil_from_days day in
  let year :=
    if (0 <=? y) && (y <=? 9999) then pad 4 y
    else if y <? 0 then "-" +:+ pad 6 (- y) else "+" +:+ pad 6 y in
  year +:+ "-" +:+ pad 2 m +:+ "-" +:+ pad 2 d.

(** [new Date().toISOString().split('T')[0]]: the UTC calendar date. *)
Definition utc_today (now : Z) : string := iso_date (now / msPerDay).

End JsDate.

(** ** The relay: [handler] of api/gemini-proxy.ts *)
Module Relay.
Import Js.

Record VercelRequest := { method : string; body : val }.

Record VercelResponse := { statusCode : Z; json : obj }.

(** What [ai.models.generateContent] resolves to: the [text] and
    [functionCalls] accessors and the [candidates] field. *)
Record GenerateContentResponse :=
  { text : val; functionCalls : val; candidates : val }.

(** A request that reaches the model provider. *)
Inductive provider_event : Type :=
  | GenerateContent (params : val).

(** Property read on an arbitrary value: reading from [undefined] or
    [null] throws, other values without the property read [undefined]. *)
Definition read (v : val) (k : string) : outcome val :=
  match v with
  | VUndefined | VNull =>
      Threw (Error ("Cannot read properties of " +:+ to_string v +:+ " (reading '" +:+ k +:+ "')"))
  | VObj o => Returned (get o k)
  | _ => Returned VUndefined
  end.

(** Optional chaining [v?.k] and [v?.[0]]. *)
Definition opt_read (v : val) (k : string) : val :=
  match v with
  | VObj o => get o k
  | _ => VUndefined
  end.

Definition opt_first (v : val) : val :=
  match v with
  | VArr (x :: _) => x
  | _ => VUndefined
  end.

(** [res.status(code).json(payload)]. *)
Definition send (code : Z) (payload : obj) : VercelResponse :=
  {| statusCode := code; json := payload |}.

(** [!apiKey]: the variable is unset or empty. *)
Definition key_missing (apiKey : option string) : bool :=
  match apiKey with
  | None => true
  | Some k => String.eqb k ""
  end.

(** [handler(req, res)], for the value [API_KEY] of the environment
    variable and the provider behind [generateContent].  The result is the
    list of provider calls made and the response sent (or the exception
    that escapes). *)
Definition handler (API_KEY : option string)
    (generateContent : val -> outcome GenerateContentResponse)
    (req : VercelRequest) : list provider_event * outcome VercelResponse :=
  if negb (String.eqb (method req) "POST") then
    ([], Returned (send 405 {[ "error" := VStr "Method Not Allowed" ]}))
  else if key_missing API_KEY then
    ([], Returned (send 500 {[ "error" := VStr "API key not configured on server." ]}))
  else
    match read (body req) "ping" with
    | Threw e => ([], Threw e)
    | Returned ping =>
        if truthy ping then
          ([], Returned (send 200 {[ "status" := VStr "ok" ]}))
        else
          let params := body req in
          match generateContent params with
          | Returned response =>
              let responseData : obj :=
                {[ "text" := text response;
                   "functionCalls" := functionCalls response;
                   "parts" := or_else (opt_read (opt_read (opt_first (candidates response))
                                                         "content") "parts")
                                      (VArr []) ]} in
              ([GenerateContent params], Returned (send 200 responseData))
          | Threw error =>
              let errorMessage :=
                message_or "An error occurred while calling the Gemini API." error in
              ([GenerateContent params], Returned (send 500 {[ "error" := VStr errorMessage ]}))
          end
    end.

(** The request as the platform hands it over: [req.body] is an accessor
    that parses the body when it is first read, and throws when the body is
    not what its content type announces (malformed JSON).  [wire_body] is
    what reading it gives: the parsed value, or the exception. *)
Record WireRequest := { wire_method : string; wire_body : outcome val }.

(** [handler(req, res)] on such a request.  The body is first read for
    [req.body.ping], after the method and the credential have been checked
    and outside the [try] block; the second read, [const params = req.body],
    gives the value parsed by the first. *)
Definition handler_parsing (API_KEY : option string)
    (generateContent : val -> outcome GenerateContentResponse)
    (req : WireRequest) : list provider_event * outcome VercelResponse :=
  if negb (String.eqb (wire_method req) "POST") then
    ([], Returned (send 405 {[ "error" := VStr "Method Not Allowed" ]}))
  else if key_missing API_KEY then
    ([], Returned (send 500 {[ "error" := VStr "API key not configured on server." ]}))
  else
    match wire_body req with
    | Threw e => ([], Threw e)
    | Returned parsed =>
        match read parsed "ping" with
        | Threw e => ([], Threw e)
        | Returned ping =>
            if truthy ping then
              ([], Returned (send 200 {[ "status" := VStr "ok" ]}))
            else
              let params := parsed in
              match generateContent params with
              | Returned response =>
                  let responseData : obj :=
                    {[ "text" := text response;
                       "functionCalls" := functionCalls response;
                       "parts" := or_else (opt_read (opt_read (opt_first (candidates response))
                                                             "content") "parts")
                                          (VArr []) ]} in
                  ([GenerateContent params], Returned (send 200 responseData))
              | Threw error =>
                  let errorMessage :=
                    message_or "An error occurred while calling the Gemini API." error in
                  ([GenerateContent params],
                   Returned (send 500 {[ "error" := VStr errorMessage ]}))
              end
        end
    end.

End Relay.

(** ** The chat component: dispatcher and orchestrator *)
Module Chatbot.
Import Js JsDate.

(** *** Data *)

(** A message of the user interface. *)
Record Message := { role : string; text : string }.

(** A part of a provider turn. *)
Inductive Part : Type :=
  | PText (text : string)
  | PFunctionCall (name : string) (args : obj)
  | PFunctionResponse (name : string) (response : obj).

(** A provider turn. *)
Record Content := { c_role : string; c_parts : list Part }.

(** A function call of a reply; [args] is an object, as the tool schema
    declares it. *)
Record FunctionCall := { fc_name : string; fc_args : obj }.

(** What the relay answers to a generation request. *)
Record ProxyReply :=
  { reply_text : option string;
    reply_functionCalls : option (list FunctionCall);
    reply_parts : list Part }.

(** The calls that leave the component, in the order they are made: the
    store callbacks [addInvoice], [updateInvoice] and [deleteInvoice]
    received as props, and the requests sent to the relay. *)
Inductive event : Type :=
  | AddInvoice (record : obj)
  | UpdateInvoice (record : obj)
  | DeleteInvoice (id : val)
  | CallProxy (systemInstruction : string) (contents : list Content).

(** What the component imports or reads from its host and that is not
    part of the source. *)
Record Env :=
  { (** the translation function of [useTranslations] *)
    t : string -> string;
    (** the members of the [InvoiceStatus] enumeration used by the code *)
    Vencido : string;
    Pendente : string;
    (** the fixed text of the system instruction, as a function of the two
        values interpolated in it: today's date and the invoice list *)
    prompt : string -> string -> string;
    (** local time minus UTC, in milliseconds *)
    tza : Z;
    (** the time value of [new Date(year, month - 1, day)] when one of the
        first three parts of the due date is not a plain string of decimal
        digits ([None] for an Invalid Date): such a part goes through the
        whole numeric-literal grammar of [Number] and its rounding *)
    Date_nonplain : list string -> option Z }.

(** *** Computations with an event log and exceptions *)

Definition M (A : Type) : Type := list event * outcome A.

Definition ret {A} (a : A) : M A := ([], Returned a).

Definition bind {A B} (m : M A) (k : A -> M B) : M B :=
  match m with
  | (log, Returned a) => let '(log', r) := k a in (log ++ log', r)
  | (log, Threw e) => (log, Threw e)
  end.

Definition lift {A} (o : outcome A) : M A := ([], o).

(** A call that leaves the component and comes back: the request to the
    relay is recorded before its answer is looked at, and a store callback
    that resolves is recorded and gives nothing back.  The store callback
    that may reject is [await_store] below. *)
Definition emit (ev : event) : M unit := ([ev], Returned tt).

Definition try_catch {A} (m : M A) (handle : exn -> M A) : M A :=
  match m with
  | (log, Threw e) => let '(log', r) := handle e in (log ++ log', r)
  | _ => m
  end.

Notation "'let!' x ':=' m 'in' k" := (bind m (fun x => k))
  (at level 10, x pattern, m at level 100, k at level 200).

(** [Array.prototype.find] and [some] with a callback that may throw. *)
Fixpoint array_find (p : obj -> outcome bool) (l : list obj) : outcome (option obj) :=
  match l with
  | [] => Returned None
  | x :: rest =>
      match p x with
      | Threw e => Threw e
      | Returned true => Returned (Some x)
      | Returned false => array_find p rest
      end
  end.

Fixpoint array_some (p : obj -> outcome bool) (l : list obj) : outcome bool :=
  match l with
  | [] => Returned false
  | x :: rest =>
      match p x with
      | Threw e => Threw e
      | Returned true => Returned true
      | Returned false => array_some p rest
      end
  end.

(** The callback [inv => inv.id.toLowerCase() === args.id.toLowerCase()]. *)
Definition same_id (args inv : obj) : outcome bool :=
  match toLowerCase (get inv "id") with
  | Threw e => Threw e
  | Returned a =>
      match toLowerCase (get args "id") with
      | Threw e => Threw e
      | Returned b => Returned (String.eqb a b)
      end
  end.

(** A stored record is typed [Invoice]: its [id] is a string. *)
Definition string_id (inv : obj) : bool := is_string (get inv "id").

(** The record's [id] is [id] up to letter case. *)
Definition has_id_ci (id : string) (inv : obj) : bool :=
  match get inv "id" with
  | VStr sid => String.eqb (lower sid) (lower id)
  | _ => false
  end.

(** The record's [id] is [id], letter for letter. *)
Definition has_id (id : string) (inv : obj) : bool :=
  match get inv "id" with
  | VStr sid => String.eqb sid id
  | _ => false
  end.

(** The summary of an invoice returned by [listInvoices]. *)
Definition summary (inv : obj) : obj :=
  {[ "id" := get inv "id";
     "clientName" := get inv "clientName";
     "amount" := get inv "amount";
     "status" := get inv "status";
     "dueDate" := get inv "dueDate" ]}.

(** [`Nota fiscal com ID ${args.id} não encontrada.`] *)
Definition not_found (args : obj) : val :=
  VObj {[ "error" := VStr ("Nota fiscal com ID " +:+ to_string (get args "id")
                            +:+ " não encontrada.") ]}.

Section Component.
Variable env : Env.

(** [new Date(year, month - 1, day)] for
    [[year, month, day] = dueDate.split('-').map(Number)]; a missing part
    is [undefined], which makes the date invalid. *)
Definition Date_of_parts (parts : list string) : option Z :=
  if forallb all_digits (take 3 parts) then
    match Number_digits <$> parts with
    | year :: month :: day :: _ => Date_local (tza env) year (month - 1) day
    | _ => None
    end
  else Date_nonplain env parts.

(** *** The dispatcher *)

(** [executeFunctionCall(name, args)] at the instant [now], for the
    [invoices] prop of the current render, in front of a store whose
    callbacks resolve ([executeFunctionCall_awaiting] below has those that
    may reject). *)
Definition executeFunctionCall (now : Z) (invoices : list obj)
    (name : string) (args : obj) : M val :=
  if String.eqb name "createInvoice" then
    let today := today_midnight (tza env) now in
    let! parts := lift (split_dash (get args "dueDate")) in
    let dueDateObj := Date_of_parts parts in
    let newInvoiceData : obj :=
      {[ "clientName" := get args "clientName";
         "amount" := get args "amount";
         "issueDate" := VStr (utc_today now);
         "dueDate" := get args "dueDate";
         "status" := VStr (if date_lt dueDateObj today then Vencido env else Pendente env);
         "observations" := or_else (get args "observations") (VStr "") ]} in
    let! _ := emit (AddInvoice newInvoiceData) in
    ret (VObj {[ "success" := VBool true;
                 "clientName" := get args "clientName";
                 "amount" := get args "amount" ]})
  else if String.eqb name "getInvoiceDetails" then
    let! invoice := lift (array_find (same_id args) invoices) in
    match invoice with
    | Some inv => ret (VObj inv)
    | None => ret (not_found args)
    end
  else if String.eqb name "updateInvoice" then
    let! originalInvoice := lift (array_find (same_id args) invoices) in
    match originalInvoice with
    | None => ret (not_found args)
    | Some orig =>
        let updatedInvoice : obj := args ∪ orig in
        let! _ := emit (UpdateInvoice updatedInvoice) in
        ret (VObj {[ "success" := VBool true; "id" := get args "id" ]})
    end
  else if String.eqb name "deleteInvoice" then
    let! invoiceExists := lift (array_some (same_id args) invoices) in
    if negb invoiceExists then ret (not_found args)
    else
      let! _ := emit (DeleteInvoice (get args "id")) in
      ret (VObj {[ "success" := VBool true; "id" := get args "id" ]})
  else if String.eqb name "listInvoices" then
    let results :=
      if truthy (get args "status")
      then filter (fun inv => strict_eq (get inv "status") (get args "status") = true) invoices
      else invoices in
    if (0 <? length results)%nat then
      ret (VArr ((fun inv => VObj (summary inv)) <$> results))
    else
      ret (VObj {[ "message" :=
                     VStr ("Nenhuma nota fiscal encontrada com o status '"
                           +:+ to_string (or_else (get args "status") (VStr "qualquer"))
                           +:+ "'.") ]})
  else
    ret (VObj {[ "error" := VStr ("Função desconhecida: " +:+ name) ]}).

(** *** The orchestrator *)

(** [n.toFixed(2)] as a method call on an arbitrary value. *)
Definition toFixed2 (v : val) : outcome string :=
  match v with
  | VNum n => Returned (pretty n +:+ ".00")
  | VUndefined | VNull =>
      Threw (Error ("Cannot read properties of " +:+ to_string v +:+ " (reading 'toFixed')"))
  | _ => Threw (Error "toFixed is not a function")
  end.

(** One line of the invoice list of the system instruction. *)
Definition context_line (inv : obj) : outcome string :=
  match toFixed2 (get inv "amount") with
  | Threw e => Threw e
  | Returned amount =>
      Returned ("- ID: " +:+ to_string (get inv "id")
                +:+ ", Cliente: " +:+ to_string (get inv "clientName")
                +:+ ", Valor: R$ " +:+ amount
                +:+ ", Status: " +:+ t env ("common.status." +:+ to_string (get inv "status")))
  end.

(** [invoices.map(inv => ...)] with a callback that may throw. *)
Fixpoint context_lines (invoices : list obj) : outcome (list string) :=
  match invoices with
  | [] => Returned []
  | inv :: rest =>
      match context_line inv with
      | Threw e => Threw e
      | Returned line =>
          match context_lines rest with
          | Threw e => Threw e
          | Returned lines => Returned (line :: lines)
          end
      end
  end.

Definition newline : string := String (ascii_of_N 10) EmptyString.

Fixpoint join (sep : string) (l : list string) : string :=
  match l with
  | [] => ""
  | [x] => x
  | x :: rest => x +:+ sep +:+ join sep rest
  end.

Definition invoiceListForContext (invoices : list obj) : outcome string :=
  if (0 <? length invoices)%nat then
    match context_lines invoices with
    | Threw e => Threw e
    | Returned lines => Returned (join newline lines)
    end
  else Returned "Nenhuma nota fiscal cadastrada no momento.".

(** The conversion of the message list to provider turns. *)
Definition toGeminiHistory (currentMessages : list Message) : list Content :=
  (fun msg => {| c_role := role msg; c_parts := [PText (text msg)] |})
    <$> List.filter
          (fun msg => negb (String.eqb (text msg) (t env "chatbot.welcomeMessage"))
                      && negb (String.eqb (text msg) (t env "chatbot.apiKeyMissing")))
          currentMessages.

(** The body of the loop over the function calls of a reply: the call and
    its [try]/[catch]. *)
Definition respond (now : Z) (invoices : list obj) (fc : FunctionCall) : M Part :=
  try_catch
    (let! result := executeFunctionCall now invoices (fc_name fc) (fc_args fc) in
     ret (PFunctionResponse (fc_name fc) {[ "result" := result ]}))
    (fun err =>
       let errorMessage :=
         message_or ("Falha ao executar a função " +:+ fc_name fc +:+ ".") err in
       ret (PFunctionResponse (fc_name fc) {[ "error" := VStr errorMessage ]})).

(** The function response that the loop body leaves for a call. *)
Definition response_to (now : Z) (invoices : list obj) (fc : FunctionCall) : Part :=
  PFunctionResponse (fc_name fc)
    match (executeFunctionCall now invoices (fc_name fc) (fc_args fc)).2 with
    | Returned result => {[ "result" := result ]}
    | Threw err =>
        {[ "error" :=
             VStr (message_or ("Falha ao executar a função " +:+ fc_name fc +:+ ".") err) ]}
    end.

(** [for (const fc of geminiResponse.functionCalls) ...]: every call reads
    the same [invoices] prop. *)
Fixpoint respond_all (now : Z) (invoices : list obj) (fcs : list FunctionCall)
    : M (list Part) :=
  match fcs with
  | [] => ret []
  | fc :: rest =>
      let! response := respond now invoices fc in
      let! responses := respond_all now invoices rest in
      ret (response :: responses)
  end.

(** [geminiResponse.functionCalls && geminiResponse.functionCalls.length > 0],
    as the list of calls to dispatch ([[]] when the test fails). *)
Definition calls_of (r : ProxyReply) : list FunctionCall :=
  default [] (reply_functionCalls r).

(** The body of the [try] block of [handleSend], up to the reply whose
    text is shown.  [relay] is the relay as seen through [fetch]: what it
    answers to a system instruction and a list of turns, a non-OK answer
    being the [Error] that [callProxy] throws. *)
Definition converse (relay : string -> list Content -> outcome ProxyReply)
    (now : Z) (invoices : list obj) (geminiHistory : list Content) : M ProxyReply :=
  let today := utc_today now in
  let! invoiceList := lift (invoiceListForContext invoices) in
  let systemInstruction := prompt env today invoiceList in
  let callProxy contents :=
    let! _ := emit (CallProxy systemInstruction contents) in
    lift (relay systemInstruction contents) in
  let! geminiResponse := callProxy geminiHistory in
  if (0 <? length (calls_of geminiResponse))%nat then
    let geminiHistory1 :=
      geminiHistory ++ [ {| c_role := "model"; c_parts := reply_parts geminiResponse |} ] in
    let! functionResponses := respond_all now invoices (calls_of geminiResponse) in
    let geminiHistory2 :=
      geminiHistory1 ++ [ {| c_role := "user"; c_parts := functionResponses |} ] in
    callProxy geminiHistory2
  else ret geminiResponse.

(** The state of the component. *)
Record State :=
  { messages : list Message;
    input : string;
    isLoading : bool;
    error : option string }.

(** [!input.trim() || isLoading || error]. *)
Definition refuses (s : State) : bool :=
  blank (input s) || isLoading s
  || match error s with Some e => negb (String.eqb e "") | None => false end.

(** [if (geminiResponse.text)]. *)
Definition shown_text (r : ProxyReply) : option string :=
  match reply_text r with
  | Some s => if String.eqb s "" then None else Some s
  | None => None
  end.

(** [handleSend]: the events of the request and the state it leaves. *)
Definition handleSend (relay : string -> list Content -> outcome ProxyReply)
    (now : Z) (invoices : list obj) (s : State) : list event * State :=
  if refuses s then ([], s)
  else
    let userMessage := {| role := "user"; text := input s |} in
    let currentMessages := messages s ++ [userMessage] in
    let geminiHistory := toGeminiHistory currentMessages in
    match converse relay now invoices geminiHistory with
    | (log, Returned geminiResponse) =>
        (log,
         {| messages :=
              match shown_text geminiResponse with
              | Some txt => currentMessages ++ [ {| role := "model"; text := txt |} ]
              | None => currentMessages
              end;
            input := "";
            isLoading := false;
            error := None |})
    | (log, Threw err) =>
        let errorMessage := message_or (t env "chatbot.errorMessage") err in
        (log,
         {| messages := currentMessages ++ [ {| role := "model"; text := errorMessage |} ];
            input := "";
            isLoading := false;
            error := Some errorMessage |})
    end.

End Component.

(** *** The dispatcher in front of a store whose callbacks may reject *)
Section Awaiting.
Variable env : Env.

(** What an awaited store callback does with a call: its promise resolves,
    or it rejects with an exception. *)
Variable store : event -> outcome unit.

(** [await addInvoice(...)], [await updateInvoice(...)] and
    [await deleteInvoice(...)]: the call is made, and a rejection is raised
    where it is awaited. *)
Definition await_store (ev : event) : M unit := ([ev], store ev).

(** [executeFunctionCall(name, args)] with the store callbacks awaited.
    [executeFunctionCall] above is this function for callbacks that all
    resolve. *)
Definition executeFunctionCall_awaiting (now : Z) (invoices : list obj)
    (name : string) (args : obj) : M val :=
  if String.eqb name "createInvoice" then
    let today := today_midnight (tza env) now in
    let! parts := lift (split_dash (get args "dueDate")) in
    let dueDateObj := Date_of_parts env parts in
    let newInvoiceData : obj :=
      {[ "clientName" := get args "clientName";
         "amount" := get args "amount";
         "issueDate" := VStr (utc_today now);
         "dueDate" := get args "dueDate";
         "status" := VStr (if date_lt dueDateObj today then Vencido env else Pendente env);
         "observations" := or_else (get args "observations") (VStr "") ]} in
    let! _ := await_store (AddInvoice newInvoiceData) in
    ret (VObj {[ "success" := VBool true;
                 "clientName" := get args "clientName";
                 "amount" := get args "amount" ]})
  else if String.eqb name "getInvoiceDetails" then
    let! invoice := lift (array_find (same_id args) invoices) in
    match invoice with
    | Some inv => ret (VObj inv)
    | None => ret (not_found args)
    end
  else if String.eqb name "updateInvoice" then
    let! originalInvoice := lift (array_find (same_id args) invoices) in
    match originalInvoice with
    | None => ret (not_found args)
    | Some orig =>
        let updatedInvoice : obj := args ∪ orig in
        let! _ := await_store (UpdateInvoice updatedInvoice) in
        ret (VObj {[ "success" := VBool true; "id" := get args "id" ]})
    end
  else if String.eqb name "deleteInvoice" then
    let! invoiceExists := lift (array_some (same_id args) invoices) in
    if negb invoiceExists then ret (not_found args)
    else
      let! _ := await_store (DeleteInvoice (get args "id")) in
      ret (VObj {[ "success" := VBool true; "id" := get args "id" ]})
  else if String.eqb name "listInvoices" then
    let results :=
      if truthy (get args "status")
      then filter (fun inv => strict_eq (get inv "status") (get args "status") = true) invoices
      else invoices in
    if (0 <? length results)%nat then
      ret (VArr ((fun inv => VObj (summary inv)) <$> results))
    else
      ret (VObj {[ "message" :=
                     VStr ("Nenhuma nota fiscal encontrada com o status '"
                           +:+ to_string (or_else (get args "status") (VStr "qualquer"))
                           +:+ "'.") ]})
  else
    ret (VObj {[ "error" := VStr ("Função desconhecida: " +:+ name) ]}).

(** The body of the loop over the function calls of a reply, with the
    store callbacks awaited: the [catch] also receives the exception of a
    callback that rejects. *)
Definition respond_awaiting (now : Z) (invoices : list obj) (fc : FunctionCall) : M Part :=
  try_catch
    (let! result := executeFunctionCall_awaiting now invoices (fc_name fc) (fc_args fc) in
     ret (PFunctionResponse (fc_name fc) {[ "result" := result ]}))
    (fun err =>
       let errorMessage :=
         message_or ("Falha ao executar a função " +:+ fc_name fc +:+ ".") err in
       ret (PFunctionResponse (fc_name fc) {[ "error" := VStr errorMessage ]})).

End Awaiting.

(** The event is a call of the store, not a request to the relay. *)
Definition is_store_call (ev : event) : bool :=
  match ev with
  | CallProxy _ _ => false
  | _ => true
  end.


(** *** The store behind [updateInvoice] *)
Section Store.

(** How the store decides that a stored record is the one an update is
    for; the store is not part of the source and the choice is left open. *)
Variable selects : obj -> obj -> bool.

(** Modelled from the spec: the store operation [update(record)], whose
    code is not part of the source.  It puts the record it is given in the
    place of the stored record it is for, and touches nothing else. *)
Definition store_update (record : obj) (store : list obj) : list obj :=
  (fun inv => if selects record inv then record else inv) <$> store.

End Store.

(** *** Two statements of the specification about a run of [handleSend] *)
Section Runs.
Variable env : Env.
Variable relay : string -> list Content -> outcome ProxyReply.
Variables (now : Z) (invoices : list obj) (s : State).

(** The request at position [i] of the run is answered by a reply with
    function calls, and a later request of the run carries the turns sent
    so far, the parts of that reply as a model turn, and one user turn
    holding one function response per call, with the name of its call. *)
Definition reply_answered (i : nat) : Prop :=
  ∀ sys contents reply,
    (handleSend env relay now invoices s).1 !! i = Some (CallProxy sys contents) →
    relay sys contents = Returned reply →
    calls_of reply ≠ [] →
    ∃ (j : nat) (responses : list Part),
      (i < j)%nat ∧
      (handleSend env relay now invoices s).1 !! j
        = Some (CallProxy sys
                  (contents
                   ++ [ {| c_role := "model"; c_parts := reply_parts reply |};
                        {| c_role := "user"; c_parts := responses |} ])) ∧
      Forall2 (fun fc part => ∃ response, part = PFunctionResponse (fc_name fc) response)
              (calls_of reply) responses.



End Runs.
End Chatbot.

(** ** Concrete data, used to run the model *)
Module Samples.
Import Js JsDate Relay Chatbot.
Local Open Scope Z_scope.

(** A host three hours behind UTC. *)
Definition env0 : Env :=
  {| t := fun key => key;
     Vencido := "Vencido";
     Pendente := "Pendente";
     prompt := fun today invoiceList => today +:+ newline +:+ invoiceList;
     tza := -10800000;
     Date_nonplain := fun _ => None |}.

(** 2024-01-02 01:00 UTC, which is 2024-01-01 22:00 local time. *)
Definition late_evening : Z := days_from_civil 2024 1 2 * msPerDay + 3600000.

Definition alice : obj :=
  {[ "clientName" := VStr "Alice"; "amount" := VNum 100; "dueDate" := VStr "2024-01-01" ]}.

Definition alice_without_dueDate : obj :=
  {[ "clientName" := VStr "Alice"; "amount" := VNum 100 ]}.

Definition stored : obj :=
  {[ "id" := VStr "AbC"; "clientName" := VStr "Bob"; "amount" := VNum 5;
     "issueDate" := VStr "2023-12-01"; "dueDate" := VStr "2024-03-01";
     "status" := VStr "Pendente"; "observations" := VStr "" ]}.

Definition list_call : FunctionCall := {| fc_name := "listInvoices"; fc_args := ∅ |}.


(** A relay behind which the model asks for the list once, then answers. *)
Definition polite_relay (sys : string) (contents : list Content) : outcome ProxyReply :=
  if (length contents <=? 1)%nat then
    Returned {| reply_text := None;
                reply_functionCalls := Some [list_call];
                reply_parts := [PFunctionCall "listInvoices" ∅] |}
  else
    Returned {| reply_text := Some "Uma nota: Bob.";
                reply_functionCalls := None;
                reply_parts := [PText "Uma nota: Bob."] |}.

Definition asking : State :=
  {| messages := []; input := "liste as notas"; isLoading := false; error := None |}.

Definition ping_request : VercelRequest :=
  {| method := "POST"; body := VObj {[ "ping" := VBool true ]} |}.

Definition provider_down (params : val) : outcome GenerateContentResponse :=
  Threw (Error "fetch failed").

(** A store that recognises a record by its exact [id]. *)
Definition by_exact_id (record inv : obj) : bool :=
  strict_eq (get record "id") (get inv "id").

End Samples.

(** ** The callers of the relay: the start-up probe and the observation service *)
Module Client.
Import Js Chatbot.

(** [JSON.parse(JSON.stringify(v))]: an [undefined] property is dropped,
    an [undefined] array element becomes [null]. *)
Fixpoint json_roundtrip (v : val) : val :=
  match v with
  | VArr items =>
      VArr ((fun x => match x with VUndefined => VNull | _ => json_roundtrip x end) <$> items)
  | VObj fields =>
      VObj (omap (fun x => match x with
                           | VUndefined => None
                           | _ => Some (json_roundtrip x)
                           end) fields)
  | _ => v
  end.

(** What [fetch] resolves to: the status and what [json()] gives. *)
Record HttpResponse := { status : Z; payload : outcome val }.

(** [response.ok]. *)
Definition ok (r : HttpResponse) : bool := ((200 <=? status r) && (status r <=? 299))%Z.

(** The answer of the relay as [fetch] presents it. *)
Definition http_of (r : Relay.VercelResponse) : HttpResponse :=
  {| status := Relay.statusCode r;
     payload := Returned (json_roundtrip (VObj (Relay.json r))) |}.

(** [s.includes(needle)] on strings. *)
Fixpoint includes (needle s : string) : bool :=
  String.prefix needle s
  || match s with
     | EmptyString => false
     | String _ rest => includes needle rest
     end.

(** [v?.includes(needle)]: short-circuits on [undefined] and [null], is
    the substring test on a string and the membership test on an array, and
    a TypeError on any other value. *)
Definition opt_includes (v : val) (needle : string) : outcome val :=
  match v with
  | VUndefined | VNull => Returned VUndefined
  | VStr s => Returned (VBool (includes needle s))
  | VArr items => Returned (VBool (existsb (strict_eq (VStr needle)) items))
  | _ => Threw (Error "includes is not a function")
  end.

(** [String.prototype.trim] (ASCII white space). *)
Fixpoint trim_start (s : string) : string :=
  match s with
  | EmptyString => EmptyString
  | String c rest => if is_space c then trim_start rest else s
  end.

Fixpoint trim_end (s : string) : string :=
  match s with
  | EmptyString => EmptyString
  | String c rest =>
      match trim_end rest with
      | EmptyString => if is_space c then EmptyString else String c EmptyString
      | kept => String c kept
      end
  end.

Definition trim (s : string) : string := trim_end (trim_start s).

(** The method call [v.trim()]. *)
Definition trim_method (v : val) : outcome string :=
  match v with
  | VStr s => Returned (trim s)
  | VUndefined | VNull =>
      Threw (Error ("Cannot read properties of " +:+ to_string v +:+ " (reading 'trim')"))
  | _ => Threw (Error "trim is not a function")
  end.

Definition and_then {A B} (o : outcome A) (k : A -> outcome B) : outcome B :=
  match o with
  | Returned a => k a
  | Threw e => Threw e
  end.

Notation "'try!' x ':=' o 'in' k" := (and_then o (fun x => k))
  (at level 10, x pattern, o at level 100, k at level 200).

(** The body of the probe request, [{ping: true}]. *)
Definition probe_body : val := VObj {[ "ping" := VBool true ]}.

Section Startup.
Variable env : Env.
Variable fetch : val -> outcome HttpResponse.

(** [checkApiConfig], run on a component in state [s]: the state it
    leaves. *)
Definition checkApiConfig (s : State) : State :=
  let attempt : outcome State :=
    try! res := fetch probe_body in
    try! keyMissing :=
      (if (status res =? 500)%Z then
         try! data := payload res in
         try! err := Relay.read data "error" in
         try! found := opt_includes err "API key not configured" in
         Returned (truthy found)
       else Returned false) in
    if keyMissing then
      Returned {| messages := [ {| role := "model"; text := t env "chatbot.apiKeyMissing" |} ];
                  input := input s;
                  isLoading := false;
                  error := Some (t env "chatbot.apiKeyMissing") |}
    else
      Returned {| messages :=
                    if (length (messages s) =? 0)%nat
                    then [ {| role := "model"; text := t env "chatbot.welcomeMessage" |} ]
                    else messages s;
                  input := input s;
                  isLoading := false;
                  error := None |} in
  match attempt with
  | Returned s' => s'
  | Threw _ =>
      let errorMessage := t env "chatbot.errorMessage" in
      {| messages := [ {| role := "model"; text := errorMessage |} ];
         input := input s;
         isLoading := false;
         error := Some errorMessage |}
  end.

(** The effect that runs when the number of messages changes. *)
Definition startup_effect (s : State) : State :=
  if (length (messages s) =? 0)%nat then checkApiConfig s else s.

End Startup.

(** The languages of the observation service. *)
Inductive Lang : Type := pt | en.

Definition dquote : string := String (ascii_of_N 34) EmptyString.

(** [prompts[lang](clientName, amount, service)]. *)
Definition prompts (lang : Lang) (clientName : string) (amount : Z) (service : string)
    : string :=
  match lang with
  | pt =>
      "Gere uma breve observação profissional para uma nota fiscal em português. Cliente: "
      +:+ dquote +:+ clientName +:+ dquote
      +:+ ", Valor: R$ " +:+ pretty amount +:+ ".00"
      +:+ ", Serviço: " +:+ dquote +:+ service +:+ dquote
      +:+ ". A observação deve ser concisa e formal."
  | en =>
      "Generate a brief, professional observation for an invoice in English. Client: "
      +:+ dquote +:+ clientName +:+ dquote
      +:+ ", Amount: $" +:+ pretty amount +:+ ".00"
      +:+ ", Service: " +:+ dquote +:+ service +:+ dquote
      +:+ ". The observation should be concise and formal."
  end.

(** The message returned when the generation fails. *)
Definition generation_failed (lang : Lang) : string :=
  match lang with
  | pt => "Erro ao gerar observação. Tente novamente."
  | en => "Error generating observation. Please try again."
  end.

Section Observation.

(** The generation settings sent with the request (temperature, topP,
    topK, maxOutputTokens, thinkingConfig), a constant of the source whose
    numbers are not all integers. *)
Variable config : val.
Variable fetch : val -> outcome HttpResponse.

(** The body of the request of [generateInvoiceObservation]. *)
Definition observation_request (clientName : string) (amount : Z) (service : string)
    (lang : Lang) : val :=
  VObj {[ "model" := VStr "gemini-2.5-flash";
          "contents" := VStr (prompts lang clientName amount service);
          "config" := config ]}.

(** [generateInvoiceObservation(clientName, amount, service, lang)]. *)
Definition generateInvoiceObservation (clientName : string) (amount : Z) (service : string)
    (lang : Lang) : string :=
  let attempt : outcome string :=
    try! apiResponse := fetch (observation_request clientName amount service lang) in
    try! _ :=
      (if negb (ok apiResponse) then
         try! errorData := payload apiResponse in
         try! err := Relay.read errorData "error" in
         Threw (Error (to_string
                         (or_else err
                            (VStr ("API request failed with status "
                                   +:+ pretty (status apiResponse))))))
       else Returned tt) in
    try! data := payload apiResponse in
    try! txt := Relay.read data "text" in
    trim_method txt in
  match attempt with
  | Returned observation => observation
  | Threw _ => generation_failed lang
  end.

End Observation.
End Client.

(** ** More concrete data *)
Module MoreSamples.
Import Js Relay Chatbot Client Samples.

(** A record whose amount is not a number. *)
Definition damaged : obj :=
  {[ "id" := VStr "d1"; "clientName" := VStr "Eve"; "amount" := VStr "cem";
     "status" := VStr "Pendente"; "dueDate" := VStr "2024-03-01" ]}.

Definition paid : obj :=
  {[ "id" := VStr "p1"; "clientName" := VStr "Ana"; "amount" := VNum 9;
     "issueDate" := VStr "2023-11-01"; "dueDate" := VStr "2023-12-01";
     "status" := VStr "Pago"; "observations" := VStr "" ]}.

(** A relay that cannot be reached. *)
Definition unreachable_relay (sys : string) (contents : list Content) : outcome ProxyReply :=
  Threw (Error "Failed to fetch").



Definition fresh : State :=
  {| messages := []; input := ""; isLoading := false; error := None |}.

(** [fetch] to a relay with the credential [API_KEY] and the provider
    [generateContent], for bodies that are objects. *)
Definition fetch_through (API_KEY : option string)
    (generateContent : val -> outcome GenerateContentResponse) (body : val)
    : outcome HttpResponse :=
  match (handler API_KEY generateContent {| method := "POST"; body := body |}).2 with
  | Returned r => Returned (http_of r)
  | Threw e => Threw e
  end.

Definition provider_says (answer : string) (params : val) : outcome GenerateContentResponse :=
  Returned {| Relay.text := VStr answer; functionCalls := VUndefined; candidates := VUndefined |}.

Definition no_config : val := VObj ∅.

Definition get_request : VercelRequest := {| method := "GET"; body := VUndefined |}.

(** A POST request whose body is announced as JSON and is not. *)
Definition malformed_request : WireRequest :=
  {| wire_method := "POST"; wire_body := Threw (Error "Invalid JSON") |}.

(** A provider whose reply has one candidate, with one text part. *)
Definition provider_with_parts (params : val) : outcome GenerateContentResponse :=
  Returned {| Relay.text := VStr "oi";
              functionCalls := VUndefined;
              candidates :=
                VArr [VObj {[ "content" :=
                                VObj {[ "role" := VStr "model";
                                        "parts" := VArr [VObj {[ "text" := VStr "oi" ]}] ]} ]}] |}.

(** A store all of whose callbacks resolve, and one all of whose callbacks
    reject. *)
Definition resolving_store (ev : event) : outcome unit := Returned tt.

Definition rejecting_store (ev : event) : outcome unit := Threw (Error "permission denied").

Definition bodyless_request : VercelRequest := {| method := "POST"; body := VUndefined |}.

Definition generation_request : VercelRequest :=
  {| method := "POST"; body := VObj {[ "model" := VStr "gemini-2.5-flash";
                                       "contents" := VStr "Olá" ]} |}.

End MoreSamples.

(** * Properties *)

Import Js JsDate Chatbot Samples.

(** ** The primitives on small inputs *)

Example split_on_iso_date :
  split_on "-"%char "2024-01-05" = ["2024"; "01"; "05"]
  /\ split_on "-"%char "" = [""]
  /\ split_on "-"%char "2024-" = ["2024"; ""].
Proof. repeat split. Qed.

Example Number_digits_leading_zero :
  Number_digits "0105" = 105%Z /\ Number_digits "" = 0%Z.
Proof. split; reflexivity. Qed.

Example lower_mixed_case : lower "AbC-19z" = "abc-19z".
Proof. reflexivity. Qed.

Example days_from_civil_epoch :
  days_from_civil 1970 1 1 = 0%Z /\ days_from_civil 2024 3 1 = 19783%Z
  /\ civil_from_days 19783 = (2024, 3, 1)%Z /\ civil_from_days (-1) = (1969, 12, 31)%Z.
Proof. repeat split. Qed.

(** Months and days outside their range roll over, as in [Date]. *)
Example MakeDay_rolls_over :
  civil_from_days (MakeDay 2024 (-1) 5) = (2023, 12, 5)%Z
  /\ civil_from_days (MakeDay 2023 1 29) = (2023, 3, 1)%Z.
Proof. split; reflexivity. Qed.

Example iso_date_padding :
  iso_date 0 = "1970-01-01" /\ iso_date (days_from_civil 12345 6 7) = "+012345-06-07".
Proof. split; vm_compute; reflexivity. Qed.

Lemma lower_ascii_idempotent (c : ascii) : lower_ascii (lower_ascii c) = lower_ascii c.
Proof.
  destruct c as [[] [] [] [] [] [] [] []]; reflexivity.
Qed.

(** Lower-casing is idempotent: an id and its lower-case form are the same
    id up to letter case. *)
Lemma lower_idempotent (s : string) : lower (lower s) = lower s.
Proof.
  induction s as [|c rest IH]; simpl; [reflexivity|].
  now rewrite lower_ascii_idempotent, IH.
Qed.

(** ** The relay *)

(** C5, counterexample: a probe sent to a relay that has no credential is
    answered 500, not OK. *)
Lemma probe_without_credential_is_refused :
  Relay.handler None provider_down ping_request
  = ([], Returned (Relay.send 500 {[ "error" := VStr "API key not configured on server." ]})).
Proof. reflexivity. Qed.

(** C5, as amended: a POST request whose body has the probe flag set never
    reaches the provider; it is answered 200 [{status: 'ok'}] when the
    credential is present, whatever the provider would do, and 500 with the
    configuration error when it is not. *)
Theorem probe_answer_depends_on_credential_only
    (API_KEY : option string)
    (generateContent : val -> outcome Relay.GenerateContentResponse)
    (req : Relay.VercelRequest) (fields : obj) :
  Relay.method req = "POST" ->
  Relay.body req = VObj fields ->
  truthy (get fields "ping") = true ->
  Relay.handler API_KEY generateContent req
  = ([], Returned
           (if Relay.key_missing API_KEY
            then Relay.send 500 {[ "error" := VStr "API key not configured on server." ]}
            else Relay.send 200 {[ "status" := VStr "ok" ]})).
Proof.
  intros Hmethod Hbody Hping. unfold Relay.handler.
  rewrite Hmethod, Hbody. simpl.
  destruct (Relay.key_missing API_KEY); [reflexivity|].
  now rewrite Hping.
Qed.

Lemma probe_answer_depends_on_credential_only_witness :
  Relay.handler (Some "secret") provider_down ping_request
  = ([], Returned (Relay.send 200 {[ "status" := VStr "ok" ]})).
Proof.
  apply (probe_answer_depends_on_credential_only
           (Some "secret") provider_down ping_request {[ "ping" := VBool true ]});
    reflexivity.
Defined.

(** ** The dispatcher *)

Section Lookup.
Variables (args : obj) (id : string).
Hypothesis Hid : get args "id" = VStr id.

Lemma same_id_typed inv :
  string_id inv = true -> same_id args inv = Returned (has_id_ci id inv).
Proof.
  unfold string_id, same_id, has_id_ci. rewrite Hid.
  destruct (get inv "id"); simpl; intros; congruence.
Qed.

Lemma array_find_absent invoices :
  forallb string_id invoices = true ->
  existsb (has_id_ci id) invoices = false ->
  array_find (same_id args) invoices = Returned None.
Proof.
  induction invoices as [|inv rest IH]; simpl; [reflexivity|].
  intros [Hty Htys]%andb_prop [Hno Hnos]%orb_false_elim.
  rewrite (same_id_typed _ Hty), Hno. auto.
Qed.

Lemma array_find_present invoices :
  forallb string_id invoices = true ->
  existsb (has_id_ci id) invoices = true ->
  exists orig, orig ∈ invoices /\ has_id_ci id orig = true
               /\ array_find (same_id args) invoices = Returned (Some orig).
Proof.
  induction invoices as [|inv rest IH]; simpl; [discriminate|].
  intros [Hty Htys]%andb_prop Hex.
  rewrite (same_id_typed _ Hty).
  destruct (has_id_ci id inv) eqn:Hinv.
  - exists inv. split; [left|]. auto.
  - destruct (IH Htys Hex) as (orig & Hin & Hm & Hfind).
    exists orig. split; [right; exact Hin|]. auto.
Qed.

Lemma array_some_find invoices :
  array_some (same_id args) invoices
  = match array_find (same_id args) invoices with
    | Returned found => Returned (bool_decide (is_Some found))
    | Threw e => Threw e
    end.
Proof.
  induction invoices as [|inv rest IH]; simpl; [reflexivity|].
  destruct (same_id args inv) as [[|]|]; auto.
Qed.

End Lookup.

(** The lookup reads the argument's [id] only through its lower-case
    form. *)
Lemma same_id_case args1 args2 id1 id2 inv :
  get args1 "id" = VStr id1 -> get args2 "id" = VStr id2 -> lower id1 = lower id2 ->
  same_id args1 inv = same_id args2 inv.
Proof.
  intros H1 H2 Hl. unfold same_id. rewrite H1, H2. simpl. now rewrite Hl.
Qed.

Lemma array_find_case args1 args2 id1 id2 invoices :
  get args1 "id" = VStr id1 -> get args2 "id" = VStr id2 -> lower id1 = lower id2 ->
  array_find (same_id args1) invoices = array_find (same_id args2) invoices.
Proof.
  intros H1 H2 Hl. induction invoices as [|inv rest IH]; simpl; [reflexivity|].
  rewrite (same_id_case args1 args2 id1 id2 inv H1 H2 Hl), IH. reflexivity.
Qed.

Section Dispatcher.
Variable env : Env.
Variable now : Z.

(** C6: an update whose id matches no stored invoice, even up to letter
    case, returns [{error: message}] and calls no store operation: nothing
    is created and the store is left as it was. *)
Theorem update_of_unknown_id_is_an_error (invoices : list obj) (args : obj) (id : string) :
  get args "id" = VStr id ->
  forallb string_id invoices = true ->
  existsb (has_id_ci id) invoices = false ->
  executeFunctionCall env now invoices "updateInvoice" args
  = ([], Returned (VObj {[ "error" := VStr ("Nota fiscal com ID " +:+ id
                                              +:+ " não encontrada.") ]})).
Proof.
  intros Hid Hty Hno. unfold executeFunctionCall. simpl.
  rewrite (array_find_absent args id Hid invoices Hty Hno). simpl.
  unfold not_found. rewrite Hid. reflexivity.
Qed.

Lemma filter_status_none (wanted : val) (invoices : list obj) :
  forallb (fun inv => negb (strict_eq (get inv "status") wanted)) invoices = true ->
  filter (fun inv => strict_eq (get inv "status") wanted = true) invoices = [].
Proof.
  induction invoices as [|inv rest IH]; simpl; [reflexivity|].
  intros [Hinv Hrest]%andb_prop. rewrite filter_cons, (IH Hrest).
  destruct (decide _) as [Heq|]; [|reflexivity].
  rewrite Heq in Hinv. discriminate.
Qed.

Lemma summary_dom (inv : obj) :
  dom (summary inv) = ({[ "id"; "clientName"; "amount"; "status"; "dueDate" ]} : gset string).
Proof. unfold summary. rewrite !dom_insert_L, dom_singleton_L. set_solver. Qed.

Lemma summary_lookup (inv : obj) (k : string) :
  k ∈ dom (summary inv) -> summary inv !! k = Some (get inv k).
Proof.
  rewrite summary_dom, !elem_of_union, !elem_of_singleton.
  intros [[[[-> | ->] | ->] | ->] | ->]; reflexivity.
Qed.

(** C7: on a non-empty store, a list call whose status filter matches no
    invoice returns a message object, not a list; a list call without a
    filter returns one summary per stored invoice, in order, and a summary
    has exactly the fields id, clientName, amount, status and dueDate, with
    the values of the invoice. *)
Theorem list_reports_no_match_and_projects (invoices : list obj) (args : obj) :
  invoices <> [] ->
  (truthy (get args "status") = true ->
   forallb (fun inv => negb (strict_eq (get inv "status") (get args "status"))) invoices = true ->
   executeFunctionCall env now invoices "listInvoices" args
   = ([], Returned (VObj {[ "message" :=
                              VStr ("Nenhuma nota fiscal encontrada com o status '"
                                    +:+ to_string (get args "status") +:+ "'.") ]})))
  /\ (args !! "status" = None ->
      executeFunctionCall env now invoices "listInvoices" args
      = ([], Returned (VArr ((fun inv => VObj (summary inv)) <$> invoices))))
  /\ (forall inv,
        dom (summary inv) = ({[ "id"; "clientName"; "amount"; "status"; "dueDate" ]} : gset string)
        /\ forall k, k ∈ dom (summary inv) -> summary inv !! k = Some (get inv k)).
Proof.
  intros Hne. split; [|split].
  - intros Hfilter Hnone. unfold executeFunctionCall. simpl.
    rewrite Hfilter, (filter_status_none _ _ Hnone). simpl.
    unfold or_else. rewrite Hfilter. reflexivity.
  - intros Hnofilter.
    assert (Hundef : get args "status" = VUndefined)
      by (unfold get; now rewrite Hnofilter).
    unfold executeFunctionCall. simpl. rewrite Hundef. simpl.
    destruct invoices; [contradiction|reflexivity].
  - intros inv. split; [apply summary_dom | apply summary_lookup].
Qed.

(** C8: two spellings of an id that differ only in letter case, one of
    which names a stored invoice up to letter case, are resolved by the
    read operation to the same stored record. *)
Theorem read_resolves_both_spellings (invoices : list obj) (args1 args2 : obj)
    (id1 id2 : string) :
  get args1 "id" = VStr id1 ->
  get args2 "id" = VStr id2 ->
  lower id1 = lower id2 ->
  forallb string_id invoices = true ->
  existsb (has_id_ci id1) invoices = true ->
  exists inv,
    inv ∈ invoices /\ has_id_ci id1 inv = true
    /\ executeFunctionCall env now invoices "getInvoiceDetails" args1 = ([], Returned (VObj inv))
    /\ executeFunctionCall env now invoices "getInvoiceDetails" args2 = ([], Returned (VObj inv)).
Proof.
  intros H1 H2 Hl Hty Hex.
  destruct (array_find_present args1 id1 H1 invoices Hty Hex) as (inv & Hin & Hm & Hfind).
  exists inv. split; [exact Hin|]. split; [exact Hm|].
  unfold executeFunctionCall. simpl.
  rewrite <- (array_find_case args1 args2 id1 id2 invoices H1 H2 Hl), Hfind.
  split; reflexivity.
Qed.

Lemma get_lookup (o : obj) (k : string) (s : string) :
  get o k = VStr s -> o !! k = Some (VStr s).
Proof. unfold get. destruct (o !! k); simpl; intros; congruence. Qed.

Lemma get_union_l (args orig : obj) (k : string) (s : string) :
  get args k = VStr s -> get (args ∪ orig) k = VStr s.
Proof.
  intros H%get_lookup. unfold get.
  now rewrite (lookup_union_Some_l args orig k _ H).
Qed.

(** C10: when the id of an update call names a stored invoice up to letter
    case but no stored id has that exact spelling, the record handed to the
    store is the argument object spread over the stored record, so that its
    id has the spelling of the argument, which is not the stored one. *)
Theorem update_writes_the_argument_spelling (invoices : list obj) (args : obj) (id : string) :
  get args "id" = VStr id ->
  forallb string_id invoices = true ->
  existsb (has_id_ci id) invoices = true ->
  existsb (has_id id) invoices = false ->
  exists orig sid,
    orig ∈ invoices /\ get orig "id" = VStr sid /\ lower sid = lower id /\ sid <> id
    /\ executeFunctionCall env now invoices "updateInvoice" args
       = ([UpdateInvoice (args ∪ orig)],
          Returned (VObj {[ "success" := VBool true; "id" := VStr id ]}))
    /\ get (args ∪ orig) "id" = VStr id
    /\ forall k, (args ∪ orig) !! k
                 = match args !! k with Some v => Some v | None => orig !! k end.
Proof.
  intros Hid Hty Hex Hexact.
  destruct (array_find_present args id Hid invoices Hty Hex) as (orig & Hin & Hm & Hfind).
  unfold has_id_ci in Hm. destruct (get orig "id") as [| | | |sid| |] eqn:Hsid; try discriminate.
  apply String.eqb_eq in Hm.
  exists orig, sid. repeat split; auto.
  - intros ->. rewrite <- not_true_iff_false in Hexact. apply Hexact.
    apply existsb_exists. exists orig. split.
    + now apply list_elem_of_In.
    + unfold has_id. rewrite Hsid. apply String.eqb_refl.
  - unfold executeFunctionCall. simpl. rewrite Hfind. simpl. now rewrite Hid.
  - now apply get_union_l.
  - intros k. rewrite lookup_union. destruct (args !! k), (orig !! k); reflexivity.
Qed.

Section Idempotence.
Variable selects : obj -> obj -> bool.

Lemma store_update_twice (record : obj) (store : list obj) :
  store_update selects record (store_update selects record store)
  = store_update selects record store.
Proof.
  unfold store_update. rewrite <- list_fmap_compose.
  apply list_fmap_ext. intros _ inv _. simpl.
  destruct (selects record inv) eqn:Hsel.
  - now destruct (selects record record).
  - now rewrite Hsel.
Qed.

Lemma merge_twice (args orig : obj) : args ∪ (args ∪ orig) = args ∪ orig.
Proof. now rewrite (assoc_L (∪)), (idemp_L (∪)). Qed.

(** After the store has taken the merged record, the lookup of the same
    id finds a record on which the merge gives the merged record again. *)
Lemma array_find_after_update (args orig : obj) (id : string) (invoices : list obj) :
  get args "id" = VStr id ->
  array_find (same_id args) invoices = Returned (Some orig) ->
  exists found,
    array_find (same_id args) (store_update selects (args ∪ orig) invoices)
    = Returned (Some found)
    /\ args ∪ found = args ∪ orig.
Proof.
  intros Hid.
  assert (Hmerged : same_id args (args ∪ orig) = Returned true).
  { unfold same_id. rewrite (get_union_l args orig "id" id Hid), Hid. simpl.
    now rewrite String.eqb_refl. }
  induction invoices as [|inv rest IH]; simpl; [discriminate|].
  destruct (same_id args inv) as [[|]|] eqn:Hinv; intros Hfind; try discriminate.
  - injection Hfind as ->.
    destruct (selects (args ∪ orig) orig).
    + rewrite Hmerged. eexists. split; [reflexivity | apply merge_twice].
    + rewrite Hinv. eexists. split; reflexivity.
  - destruct (selects (args ∪ orig) inv).
    + rewrite Hmerged. eexists. split; [reflexivity | apply merge_twice].
    + rewrite Hinv. apply IH, Hfind.
Qed.

(** C9: an update of an existing invoice hands a merged record to the
    store; the same update, run again on the store that has taken that
    record, hands over the same record and gets the same answer, and the
    store that takes it a second time is the store that took it once. *)
Theorem update_twice_is_update_once (now' : Z) (invoices : list obj) (args : obj)
    (id : string) :
  get args "id" = VStr id ->
  forallb string_id invoices = true ->
  existsb (has_id_ci id) invoices = true ->
  exists updated answer,
    executeFunctionCall env now invoices "updateInvoice" args
    = ([UpdateInvoice updated], Returned answer)
    /\ executeFunctionCall env now' (store_update selects updated invoices) "updateInvoice" args
       = ([UpdateInvoice updated], Returned answer)
    /\ store_update selects updated (store_update selects updated invoices)
       = store_update selects updated invoices.
Proof.
  intros Hid Hty Hex.
  destruct (array_find_present args id Hid invoices Hty Hex) as (orig & _ & _ & Hfind).
  destruct (array_find_after_update args orig id invoices Hid Hfind) as (found & Hfind' & Hsame).
  exists (args ∪ orig), (VObj {[ "success" := VBool true; "id" := get args "id" ]}).
  split; [|split].
  - unfold executeFunctionCall. simpl. now rewrite Hfind.
  - unfold executeFunctionCall. simpl. rewrite Hfind'. simpl. now rewrite Hsame.
  - apply store_update_twice.
Qed.

End Idempotence.

(** The [try]/[catch] around a call always yields a function response
    named after the call: the returned value as [{result}], or the message
    of the exception as [{error}]. *)
Lemma respond_wraps (invoices : list obj) (fc : FunctionCall) :
  respond env now invoices fc
  = ((executeFunctionCall env now invoices (fc_name fc) (fc_args fc)).1,
     Returned (response_to env now invoices fc)).
Proof.
  unfold respond, response_to.
  destruct (executeFunctionCall env now invoices (fc_name fc) (fc_args fc))
    as [log [result|err]] eqn:Hrun; simpl.
  - now rewrite app_nil_r.
  - now rewrite app_nil_r.
Qed.

Section AwaitedStore.
Variable store : event -> outcome unit.

(** In front of a store whose callbacks resolve, the dispatcher with the
    callbacks awaited is the dispatcher of the sections above. *)
Lemma executeFunctionCall_awaiting_resolving (invoices : list obj) (name : string)
    (args : obj) :
  (forall ev, store ev = Returned tt) ->
  executeFunctionCall_awaiting env store now invoices name args
  = executeFunctionCall env now invoices name args.
Proof.
  intros Hresolves.
  unfold executeFunctionCall_awaiting, executeFunctionCall, await_store, emit.
  repeat (destruct (String.eqb name _)); try reflexivity.
  - destruct (split_dash _); simpl; [now rewrite Hresolves|reflexivity].
  - destruct (array_find _ _) as [[orig|]|]; simpl; try reflexivity.
    now rewrite Hresolves.
  - destruct (array_some _ _) as [[|]|]; simpl; try reflexivity.
    now rewrite Hresolves.
Qed.

(** The dispatcher raises either before it has called the store, or with
    the exception of the one store callback it has called. *)
Lemma executeFunctionCall_awaiting_raise (invoices : list obj) (name : string) (args : obj) :
  match (executeFunctionCall_awaiting env store now invoices name args).2 with
  | Returned _ =>
      Forall (fun ev => store ev = Returned tt)
             (executeFunctionCall_awaiting env store now invoices name args).1
  | Threw err =>
      (executeFunctionCall_awaiting env store now invoices name args).1 = []
      \/ exists ev,
           (executeFunctionCall_awaiting env store now invoices name args).1 = [ev]
           /\ store ev = Threw err
  end.
Proof.
  unfold executeFunctionCall_awaiting, await_store.
  repeat (destruct (String.eqb name _)).
  - destruct (split_dash _); simpl; [|left; reflexivity].
    match goal with |- context [store ?ev] => destruct (store ev) as [[]|err] eqn:Hev end;
      simpl; [repeat constructor; exact Hev|right; eexists; split; [reflexivity|exact Hev]].
  - destruct (array_find _ _) as [[?|]|]; simpl; auto.
  - destruct (array_find _ _) as [[?|]|]; simpl; auto.
    match goal with |- context [store ?ev] => destruct (store ev) as [[]|err] eqn:Hev end;
      simpl; [repeat constructor; exact Hev|right; eexists; split; [reflexivity|exact Hev]].
  - destruct (array_some _ _) as [[|]|]; simpl; auto.
    match goal with |- context [store ?ev] => destruct (store ev) as [[]|err] eqn:Hev end;
      simpl; [repeat constructor; exact Hev|right; eexists; split; [reflexivity|exact Hev]].
  - destruct (0 <? _)%nat; simpl; auto.
  - simpl; auto.
Qed.

(** C1, as amended: the dispatcher either returns a value or raises.  It
    does not validate its arguments, and it awaits the store callbacks: it
    raises either before any store call (a field that should be a string is
    not), or with the exception of the single store callback that it has
    called and that rejected; when it returns, every store callback it
    called has resolved.  [createInvoice] raises without touching the store
    exactly when [dueDate] is not a string (a missing [dueDate] included);
    otherwise it calls [addInvoice] once, returns the success echo when the
    callback resolves and raises the callback's exception when it rejects.
    The [try]/[catch] around each call in the orchestrator turns a returned
    value into a [{result}] function response and any raised exception into
    an [{error: message}] one. *)
Theorem dispatch_raises_before_or_with_the_store (invoices : list obj) (name : string)
    (args : obj) :
  match (executeFunctionCall_awaiting env store now invoices name args).2 with
  | Returned _ =>
      Forall (fun ev => store ev = Returned tt)
             (executeFunctionCall_awaiting env store now invoices name args).1
  | Threw err =>
      (executeFunctionCall_awaiting env store now invoices name args).1 = []
      \/ exists ev,
           (executeFunctionCall_awaiting env store now invoices name args).1 = [ev]
           /\ store ev = Threw err
  end
  /\ (exists response,
        respond_awaiting env store now invoices {| fc_name := name; fc_args := args |}
        = ((executeFunctionCall_awaiting env store now invoices name args).1,
           Returned (PFunctionResponse name response))
        /\ match (executeFunctionCall_awaiting env store now invoices name args).2 with
           | Returned result => response = {[ "result" := result ]}
           | Threw err =>
               response = {[ "error" :=
                 VStr (message_or ("Falha ao executar a função " +:+ name +:+ ".") err) ]}
           end)
  /\ (is_string (get args "dueDate") = false ->
      exists message,
        executeFunctionCall_awaiting env store now invoices "createInvoice" args
        = ([], Threw (Error message)))
  /\ (is_string (get args "dueDate") = true ->
      exists record,
        executeFunctionCall_awaiting env store now invoices "createInvoice" args
        = ([AddInvoice record],
           match store (AddInvoice record) with
           | Returned _ =>
               Returned (VObj {[ "success" := VBool true;
                                 "clientName" := get args "clientName";
                                 "amount" := get args "amount" ]})
           | Threw err => Threw err
           end)).
Proof.
  split; [apply executeFunctionCall_awaiting_raise|]. split; [|split].
  - unfold respond_awaiting. simpl.
    destruct (executeFunctionCall_awaiting env store now invoices name args)
      as [log [result|err]]; simpl;
      (eexists; rewrite app_nil_r; split; reflexivity).
  - intros Hdue. unfold executeFunctionCall_awaiting. simpl.
    destruct (get args "dueDate"); try discriminate; simpl; eexists; reflexivity.
  - intros Hdue. unfold executeFunctionCall_awaiting, await_store. simpl.
    destruct (get args "dueDate"); try discriminate; simpl.
    match goal with |- context [store (AddInvoice ?r)] => exists r end.
    destruct (store _) as [[]|err]; reflexivity.
Qed.

End AwaitedStore.

(** The record that [createInvoice] adds for a due date that is a string. *)
Lemma createInvoice_record (invoices : list obj) (args : obj) (due : string) :
  get args "dueDate" = VStr due ->
  (executeFunctionCall env now invoices "createInvoice" args).1
  = [AddInvoice
       {[ "clientName" := get args "clientName";
          "amount" := get args "amount";
          "issueDate" := VStr (utc_today now);
          "dueDate" := VStr due;
          "status" := VStr (if date_lt (Date_of_parts env (split_on "-"%char due))
                                       (today_midnight (tza env) now)
                            then Vencido env else Pendente env);
          "observations" := or_else (get args "observations") (VStr "") ]}].
Proof.
  intros Hdue. unfold executeFunctionCall. simpl. rewrite Hdue. reflexivity.
Qed.

(** For a due date made of three strings of digits, the comparison of the
    two dates is the comparison of the day numbers: the day the due date
    falls on, and the local day of the instant of the call. *)
Lemma due_before_today_by_day (ys ms ds : string) (rest : list string) :
  all_digits ys = true -> all_digits ms = true -> all_digits ds = true ->
  let year := Number_digits ys in
  let yr := if ((0 <=? year) && (year <=? 99))%Z then (1900 + year)%Z else year in
  let due_day := MakeDay yr (Number_digits ms - 1) (Number_digits ds) in
  (Z.abs (due_day * msPerDay - tza env) <= 8640000000000000)%Z ->
  (Z.abs (local_day (tza env) now * msPerDay - tza env) <= 8640000000000000)%Z ->
  date_lt (Date_of_parts env (ys :: ms :: ds :: rest)) (today_midnight (tza env) now)
  = (due_day <? local_day (tza env) now)%Z.
Proof.
  intros Hy Hm Hd year yr due_day Hdue Htoday.
  unfold Date_of_parts. simpl. rewrite Hy, Hm, Hd. simpl.
  unfold Date_local, today_midnight, TimeClip. fold year. fold yr. fold due_day.
  apply Z.leb_le in Hdue, Htoday. rewrite Hdue, Htoday. simpl.
  unfold msPerDay.
  destruct (Z.ltb_spec (due_day * 86400000 - tza env)
                       (local_day (tza env) now * 86400000 - tza env));
    destruct (Z.ltb_spec due_day (local_day (tza env) now)); try reflexivity; lia.
Qed.

End Dispatcher.

(** ** The orchestrator *)

Section Orchestrator.
Variable env : Env.
Variable relay : string -> list Content -> outcome ProxyReply.
Variables (now : Z) (invoices : list obj).

Lemma executeFunctionCall_calls_store (name : string) (args : obj) :
  forallb is_store_call (executeFunctionCall env now invoices name args).1 = true.
Proof.
  unfold executeFunctionCall.
  repeat (destruct (String.eqb name _)); simpl.
  - now destruct (split_dash _).
  - now destruct (array_find _ _) as [[?|]|].
  - now destruct (array_find _ _) as [[?|]|].
  - now destruct (array_some _ _) as [[|]|].
  - now destruct (0 <? _)%nat.
  - reflexivity.
Qed.

(** The loop over the calls of a reply never raises; it leaves one
    response per call, in order, and only calls the store. *)
Lemma respond_all_answers (fcs : list FunctionCall) :
  (respond_all env now invoices fcs).2 = Returned (response_to env now invoices <$> fcs)
  /\ forallb is_store_call (respond_all env now invoices fcs).1 = true.
Proof.
  induction fcs as [|fc rest [Hrest Hlog]]; simpl.
  - split; reflexivity.
  - rewrite respond_wraps.
    destruct (respond_all env now invoices rest) as [log result].
    simpl in Hrest, Hlog. subst result. simpl.
    split; [reflexivity|].
    rewrite app_nil_r, forallb_app, Hlog, executeFunctionCall_calls_store. reflexivity.
Qed.



Section Request.
Variables (geminiHistory : list Content) (invoiceList : string).
Hypothesis Hlist : invoiceListForContext env invoices = Returned invoiceList.


(** A reply with function calls is followed by the dispatch of its calls
    and by one more request, whose answer ends the exchange. *)
Lemma converse_with_calls (r1 : ProxyReply) :
  let systemInstruction := prompt env (utc_today now) invoiceList in
  relay systemInstruction geminiHistory = Returned r1 ->
  calls_of r1 <> [] ->
  converse env relay now invoices geminiHistory
       = (CallProxy systemInstruction geminiHistory
            :: (respond_all env now invoices (calls_of r1)).1
            ++ [CallProxy systemInstruction
                  (geminiHistory
                   ++ [ {| c_role := "model"; c_parts := reply_parts r1 |};
                        {| c_role := "user";
                           c_parts := response_to env now invoices <$> calls_of r1 |} ])],
          relay systemInstruction
            (geminiHistory
             ++ [ {| c_role := "model"; c_parts := reply_parts r1 |};
                  {| c_role := "user";
                     c_parts := response_to env now invoices <$> calls_of r1 |} ])).
Proof.
  intros systemInstruction Hr1 Hcalls.
  destruct (respond_all_answers (calls_of r1)) as [Hall _].
  unfold converse. rewrite Hlist. simpl. fold systemInstruction. rewrite Hr1.
  destruct (calls_of r1) as [|fc fcs] eqn:Hfcs; [contradiction|].
  change (0 <? length (fc :: fcs))%nat with true. cbv iota.
  destruct (respond_all env now invoices (fc :: fcs)) as [log result].
  simpl in Hall. subst result. simpl. rewrite <- !app_assoc. reflexivity.
Qed.

End Request.

Lemma handleSend_log (s : State) :
  refuses s = false ->
  (handleSend env relay now invoices s).1
  = (converse env relay now invoices
       (toGeminiHistory env (messages s ++ [ {| role := "user"; text := input s |} ]))).1.
Proof.
  intros Hgo. unfold handleSend. rewrite Hgo.
  now destruct (converse _ _ _ _ _) as [log [r|e]].
Qed.




(** The first request of any run is answered in the sense of the
    specification. *)
Lemma first_reply_is_answered (s : State) : reply_answered env relay now invoices s 0.
Proof.
  intros sys contents reply Hfirst Hreply Hcalls.
  destruct (refuses s) eqn:Hgo.
  { unfold handleSend in Hfirst. rewrite Hgo in Hfirst. discriminate. }
  rewrite (handleSend_log s Hgo) in Hfirst |- *.
  set (h0 := toGeminiHistory env _) in *.
  destruct (invoiceListForContext env invoices) as [ctx|e] eqn:Hctx;
    [|unfold converse in Hfirst; rewrite Hctx in Hfirst; discriminate].
  assert (Hsame : sys = prompt env (utc_today now) ctx /\ contents = h0).
  { unfold converse in Hfirst. rewrite Hctx in Hfirst. simpl in Hfirst.
    destruct (relay (prompt env (utc_today now) ctx) h0) as [r|]; simpl in Hfirst.
    - destruct (0 <? length (calls_of r))%nat; simpl in Hfirst.
      + destruct (respond_all env now invoices (calls_of r)) as [l [rs|e]];
          simpl in Hfirst; split; congruence.
      + split; congruence.
    - split; congruence. }
  destruct Hsame as [-> ->].
  rewrite (converse_with_calls h0 ctx Hctx reply Hreply Hcalls).
  exists (S (length (respond_all env now invoices (calls_of reply)).1)),
         (response_to env now invoices <$> calls_of reply).
  split; [lia|]. split.
  - cbn [fst]. rewrite lookup_cons_ne_0 by lia. simpl.
    rewrite lookup_app_r by lia. now rewrite Nat.sub_diag.
  - apply Forall2_fmap_r, Forall_Forall2_diag, Forall_forall.
    intros fc _. unfold response_to. eexists. reflexivity.
Qed.

End Orchestrator.

(** ** The properties at work on concrete requests *)

(** C1, counterexample: [createInvoice] without [dueDate] raises a
    TypeError instead of returning an [{error: message}] value. *)
Lemma createInvoice_without_dueDate_raises :
  executeFunctionCall env0 late_evening [] "createInvoice" alice_without_dueDate
  = ([], Threw (Error "Cannot read properties of undefined (reading 'split')")).
Proof. reflexivity. Qed.

Lemma dispatch_raises_before_or_with_the_store_witness :
  (is_string (get alice_without_dueDate "dueDate") = false
   /\ exists message,
        executeFunctionCall_awaiting env0 MoreSamples.rejecting_store late_evening [stored]
          "createInvoice" alice_without_dueDate
        = ([], Threw (Error message)))
  /\ (is_string (get alice "dueDate") = true
      /\ exists record,
           executeFunctionCall_awaiting env0 MoreSamples.rejecting_store late_evening [stored]
             "createInvoice" alice
           = ([AddInvoice record], Threw (Error "permission denied"))).
Proof.
  split.
  - split; [reflexivity|].
    destruct (dispatch_raises_before_or_with_the_store env0 late_evening MoreSamples.rejecting_store
                [stored] "createInvoice" alice_without_dueDate) as (_ & _ & Hraises & _).
    apply Hraises. reflexivity.
  - split; [reflexivity|].
    destruct (dispatch_raises_before_or_with_the_store env0 late_evening MoreSamples.rejecting_store
                [stored] "createInvoice" alice) as (_ & _ & _ & Hadds).
    destruct Hadds as [record Hrun]; [reflexivity|].
    exists record. exact Hrun.
Defined.

(** C3, the code at the failing input: at 22:00 local time on 2024-01-01,
    three hours behind UTC, the record created for a due date of 2024-01-01
    is Pendente, by comparison with the local date, and carries the issue
    date 2024-01-02, the UTC date, while the local date is 2024-01-01. *)
Theorem createInvoice_issue_date_is_the_utc_date :
  (executeFunctionCall env0 late_evening [] "createInvoice" alice).1
  = [AddInvoice {[ "clientName" := VStr "Alice";
                   "amount" := VNum 100;
                   "issueDate" := VStr "2024-01-02";
                   "dueDate" := VStr "2024-01-01";
                   "status" := VStr "Pendente";
                   "observations" := VStr "" ]}]
  /\ iso_date (local_day (tza env0) late_evening) = "2024-01-01".
Proof. split; vm_compute; reflexivity. Qed.

Lemma update_of_unknown_id_is_an_error_witness :
  executeFunctionCall env0 late_evening [stored] "updateInvoice" {[ "id" := VStr "xyz" ]}
  = ([], Returned (VObj {[ "error" := VStr "Nota fiscal com ID xyz não encontrada." ]})).
Proof.
  apply (update_of_unknown_id_is_an_error env0 late_evening [stored]
           {[ "id" := VStr "xyz" ]} "xyz"); reflexivity.
Defined.

Lemma list_reports_no_match_and_projects_witness :
  executeFunctionCall env0 late_evening [stored] "listInvoices" {[ "status" := VStr "Pago" ]}
  = ([], Returned (VObj {[ "message" :=
                             VStr "Nenhuma nota fiscal encontrada com o status 'Pago'." ]}))
  /\ executeFunctionCall env0 late_evening [stored] "listInvoices" ∅
     = ([], Returned (VArr [VObj (summary stored)])).
Proof.
  split.
  - destruct (list_reports_no_match_and_projects env0 late_evening [stored]
                {[ "status" := VStr "Pago" ]}) as (Hnone & _ & _);
      [discriminate|].
    apply Hnone; reflexivity.
  - destruct (list_reports_no_match_and_projects env0 late_evening [stored] ∅)
      as (_ & Hall & _); [discriminate|].
    apply Hall; reflexivity.
Defined.

Lemma read_resolves_both_spellings_witness :
  exists inv,
    inv ∈ [stored] /\ has_id_ci "ABC" inv = true
    /\ executeFunctionCall env0 late_evening [stored] "getInvoiceDetails" {[ "id" := VStr "ABC" ]}
       = ([], Returned (VObj inv))
    /\ executeFunctionCall env0 late_evening [stored] "getInvoiceDetails" {[ "id" := VStr "abc" ]}
       = ([], Returned (VObj inv)).
Proof.
  apply (read_resolves_both_spellings env0 late_evening [stored]
           {[ "id" := VStr "ABC" ]} {[ "id" := VStr "abc" ]} "ABC" "abc"); reflexivity.
Defined.

Lemma update_writes_the_argument_spelling_witness :
  exists orig sid,
    orig ∈ [stored] /\ get orig "id" = VStr sid /\ lower sid = lower "abc" /\ sid <> "abc"
    /\ executeFunctionCall env0 late_evening [stored] "updateInvoice"
         {[ "id" := VStr "abc"; "amount" := VNum 7 ]}
       = ([UpdateInvoice ({[ "id" := VStr "abc"; "amount" := VNum 7 ]} ∪ orig)],
          Returned (VObj {[ "success" := VBool true; "id" := VStr "abc" ]}))
    /\ get ({[ "id" := VStr "abc"; "amount" := VNum 7 ]} ∪ orig) "id" = VStr "abc"
    /\ forall k, (({[ "id" := VStr "abc"; "amount" := VNum 7 ]} : obj) ∪ orig) !! k
                 = match ({[ "id" := VStr "abc"; "amount" := VNum 7 ]} : obj) !! k with
                   | Some v => Some v
                   | None => orig !! k
                   end.
Proof.
  apply (update_writes_the_argument_spelling env0 late_evening [stored]
           {[ "id" := VStr "abc"; "amount" := VNum 7 ]} "abc"); reflexivity.
Defined.

Lemma update_twice_is_update_once_witness :
  exists updated answer,
    executeFunctionCall env0 late_evening [stored] "updateInvoice"
      {[ "id" := VStr "AbC"; "amount" := VNum 7 ]}
    = ([UpdateInvoice updated], Returned answer)
    /\ executeFunctionCall env0 (late_evening + 1000)
         (store_update by_exact_id updated [stored]) "updateInvoice"
         {[ "id" := VStr "AbC"; "amount" := VNum 7 ]}
       = ([UpdateInvoice updated], Returned answer)
    /\ store_update by_exact_id updated (store_update by_exact_id updated [stored])
       = store_update by_exact_id updated [stored].
Proof.
  apply (update_twice_is_update_once env0 late_evening by_exact_id (late_evening + 1000)
           [stored] {[ "id" := VStr "AbC"; "amount" := VNum 7 ]} "AbC"); reflexivity.
Defined.





(** * Further properties of the code *)

Import Client MoreSamples.

Example trim_both_ends :
  trim "  uma  nota " = "uma  nota" /\ trim "   " = "" /\ trim "" = "".
Proof. repeat split. Qed.

Example includes_substring :
  includes "API key not configured" "API key not configured on server." = true
  /\ includes "key" "API Error" = false.
Proof. split; reflexivity. Qed.

(** ** The relay, beyond the probe *)

(** X1: a request whose method is not POST is answered 405, whatever its
    body and whether or not the credential is present, and the provider is
    not contacted. *)
Theorem handler_rejects_other_methods
    (API_KEY : option string)
    (generateContent : val -> outcome Relay.GenerateContentResponse)
    (req : Relay.VercelRequest) :
  Relay.method req <> "POST" ->
  Relay.handler API_KEY generateContent req
  = ([], Returned (Relay.send 405 {[ "error" := VStr "Method Not Allowed" ]})).
Proof.
  intros Hmethod. unfold Relay.handler.
  destruct (String.eqb_spec (Relay.method req) "POST"); [contradiction|reflexivity].
Qed.

Lemma handler_rejects_other_methods_witness :
  Relay.handler (Some "secret") (provider_says "oi") get_request
  = ([], Returned (Relay.send 405 {[ "error" := VStr "Method Not Allowed" ]})).
Proof.
  apply (handler_rejects_other_methods (Some "secret") (provider_says "oi") get_request).
  discriminate.
Defined.

(** X2: without the credential every POST request, generation requests
    and requests without a body included, is answered 500 with the
    configuration error, and the provider is not contacted. *)
Theorem handler_requires_the_credential
    (API_KEY : option string)
    (generateContent : val -> outcome Relay.GenerateContentResponse)
    (req : Relay.VercelRequest) :
  Relay.method req = "POST" ->
  Relay.key_missing API_KEY = true ->
  Relay.handler API_KEY generateContent req
  = ([], Returned (Relay.send 500 {[ "error" := VStr "API key not configured on server." ]})).
Proof.
  intros Hmethod Hkey. unfold Relay.handler. now rewrite Hmethod, Hkey.
Qed.

Lemma handler_requires_the_credential_witness :
  Relay.handler (Some "") (provider_says "oi") bodyless_request
  = ([], Returned (Relay.send 500 {[ "error" := VStr "API key not configured on server." ]})).
Proof.
  apply (handler_requires_the_credential (Some "") (provider_says "oi") bodyless_request);
    reflexivity.
Defined.

(** Once the body has been read, the handler goes on as on the value
    read. *)
Lemma handler_parsing_parsed
    (API_KEY : option string)
    (generateContent : val -> outcome Relay.GenerateContentResponse)
    (method : string) (parsed : val) :
  Relay.handler_parsing API_KEY generateContent
    {| Relay.wire_method := method; Relay.wire_body := Returned parsed |}
  = Relay.handler API_KEY generateContent
      {| Relay.method := method; Relay.body := parsed |}.
Proof. reflexivity. Qed.

(** X3: the exceptions that escape the relay are those of reading the
    body, which happens outside the [try] block: the handler raises exactly
    when the method is POST, the credential is present and either reading
    [req.body] throws (a malformed body), or the body is [undefined] or
    [null]; in the first case what is raised is the exception of the read.
    A failure of the provider never escapes. *)
Theorem handler_raises_only_on_the_body
    (API_KEY : option string)
    (generateContent : val -> outcome Relay.GenerateContentResponse)
    (req : Relay.WireRequest) :
  ((exists e, (Relay.handler_parsing API_KEY generateContent req).2 = Threw e)
   <-> (Relay.wire_method req = "POST" /\ Relay.key_missing API_KEY = false
        /\ ((exists e, Relay.wire_body req = Threw e)
            \/ Relay.wire_body req = Returned VUndefined
            \/ Relay.wire_body req = Returned VNull)))
  /\ (forall e,
        Relay.wire_method req = "POST" -> Relay.key_missing API_KEY = false ->
        Relay.wire_body req = Threw e ->
        Relay.handler_parsing API_KEY generateContent req = ([], Threw e)).
Proof.
  split.
  - unfold Relay.handler_parsing.
    destruct (String.eqb_spec (Relay.wire_method req) "POST") as [Hpost|Hother]; simpl;
      [|split; [intros [e He]; discriminate | intros (Hpost & _); contradiction]].
    destruct (Relay.key_missing API_KEY); simpl;
      [split; [intros [e He]; discriminate | intros (_ & Hkey & _); discriminate]|].
    destruct (Relay.wire_body req) as [parsed|failure] eqn:Hbody; simpl;
      [|split; [intros _; eauto 6 | intros _; eexists; reflexivity]].
    destruct parsed; simpl;
      try (split; [intros _; auto 6 | intros _; eexists; reflexivity]);
      (split; [|intros (_ & _ & [[e He]|[He|He]]); discriminate]);
      intros [e He];
      repeat match type of He with
             | context [if ?c then _ else _] => destruct c; simpl in He
             | context [match generateContent ?p with _ => _ end] =>
                 destruct (generateContent p); simpl in He
             end; discriminate.
  - intros e Hpost Hkey Hbody. unfold Relay.handler_parsing.
    now rewrite Hpost, Hkey, Hbody.
Qed.

Lemma handler_raises_only_on_the_body_witness :
  Relay.handler_parsing (Some "secret") (provider_says "oi") malformed_request
  = ([], Threw (Error "Invalid JSON")).
Proof.
  destruct (handler_raises_only_on_the_body (Some "secret") (provider_says "oi")
              malformed_request) as [_ Hread].
  apply Hread; reflexivity.
Defined.

(** X4: a generation request (a POST request with a body whose [ping] is
    falsy, to a relay that has the credential) is passed to the provider
    once and verbatim; when the provider fails, the relay answers 500 with
    the message of the error, or with a fixed message when what was thrown
    is not an [Error]. *)
Theorem provider_failure_is_reported
    (API_KEY : option string)
    (generateContent : val -> outcome Relay.GenerateContentResponse)
    (req : Relay.VercelRequest) (ping : val) (failure : exn) :
  Relay.method req = "POST" ->
  Relay.key_missing API_KEY = false ->
  Relay.read (Relay.body req) "ping" = Returned ping ->
  truthy ping = false ->
  generateContent (Relay.body req) = Threw failure ->
  Relay.handler API_KEY generateContent req
  = ([Relay.GenerateContent (Relay.body req)],
     Returned (Relay.send 500
                 {[ "error" :=
                      VStr match failure with
                           | Error message => message
                           | NonError _ => "An error occurred while calling the Gemini API."
                           end ]})).
Proof.
  intros Hmethod Hkey Hread Hping Hfail. unfold Relay.handler.
  rewrite Hmethod, Hkey, Hread, Hping, Hfail. simpl. now destruct failure.
Qed.

Lemma provider_failure_is_reported_witness :
  Relay.handler (Some "secret") provider_down generation_request
  = ([Relay.GenerateContent (Relay.body generation_request)],
     Returned (Relay.send 500 {[ "error" := VStr "fetch failed" ]})).
Proof.
  apply (provider_failure_is_reported (Some "secret") provider_down generation_request
           VUndefined (Error "fetch failed")); reflexivity.
Defined.

(** X5: when the provider answers a generation request, the relay answers
    200 with the provider's text and function calls, and with a [parts]
    field that is never missing: when the reply's candidates are an array
    whose first element is an object with a [content] object whose [parts]
    are truthy, it is those parts; when the reply has no candidates, or an
    empty array of them, it is the empty array. *)
Theorem generation_reply_always_has_parts
    (API_KEY : option string)
    (generateContent : val -> outcome Relay.GenerateContentResponse)
    (req : Relay.VercelRequest) (ping : val) (response : Relay.GenerateContentResponse) :
  Relay.method req = "POST" ->
  Relay.key_missing API_KEY = false ->
  Relay.read (Relay.body req) "ping" = Returned ping ->
  truthy ping = false ->
  generateContent (Relay.body req) = Returned response ->
  exists payload,
    Relay.handler API_KEY generateContent req
    = ([Relay.GenerateContent (Relay.body req)], Returned (Relay.send 200 payload))
    /\ get payload "text" = Relay.text response
    /\ get payload "functionCalls" = Relay.functionCalls response
    /\ truthy (get payload "parts") = true
    /\ (forall first others content parts,
          Relay.candidates response = VArr (VObj first :: others) ->
          get first "content" = VObj content ->
          get content "parts" = parts ->
          truthy parts = true ->
          get payload "parts" = parts)
    /\ (Relay.candidates response = VUndefined \/ Relay.candidates response = VArr [] ->
        get payload "parts" = VArr []).
Proof.
  intros Hmethod Hkey Hread Hping Hreply. unfold Relay.handler.
  rewrite Hmethod, Hkey, Hread, Hping, Hreply. simpl.
  eexists. split; [reflexivity|]. repeat apply conj; try reflexivity.
  - unfold get. simpl. unfold or_else.
    destruct (truthy (Relay.opt_read _ _)) eqn:Hparts; [exact Hparts|reflexivity].
  - intros first others content parts Hcandidates Hcontent Hparts Htruthy.
    unfold get at 1. simpl. rewrite Hcandidates. simpl.
    rewrite Hcontent. simpl. rewrite Hparts. unfold or_else. now rewrite Htruthy.
  - intros [->| ->]; reflexivity.
Qed.

Lemma generation_reply_always_has_parts_witness :
  exists payload,
    Relay.handler (Some "secret") provider_with_parts generation_request
    = ([Relay.GenerateContent (Relay.body generation_request)],
       Returned (Relay.send 200 payload))
    /\ get payload "text" = VStr "oi"
    /\ get payload "parts" = VArr [VObj {[ "text" := VStr "oi" ]}].
Proof.
  destruct (generation_reply_always_has_parts (Some "secret") provider_with_parts
              generation_request VUndefined
              {| Relay.text := VStr "oi";
                 Relay.functionCalls := VUndefined;
                 Relay.candidates :=
                   VArr [VObj {[ "content" :=
                                   VObj {[ "role" := VStr "model";
                                           "parts" := VArr [VObj {[ "text" := VStr "oi" ]}] ]} ]}] |})
    as (payload & Hrun & Htext & _ & _ & Hparts & _);
    [reflexivity | reflexivity | reflexivity | reflexivity | reflexivity |].
  exists payload. split; [exact Hrun|]. split; [exact Htext|].
  apply (Hparts {[ "content" :=
                     VObj {[ "role" := VStr "model";
                             "parts" := VArr [VObj {[ "text" := VStr "oi" ]}] ]} ]}
                [] {[ "role" := VStr "model";
                      "parts" := VArr [VObj {[ "text" := VStr "oi" ]}] ]});
    reflexivity.
Defined.

(** X6: whatever the request, the relay contacts the provider at most
    once, only for a POST request and with the credential present, and
    every response it sends has status 200, 405 or 500. *)
Theorem handler_calls_provider_at_most_once
    (API_KEY : option string)
    (generateContent : val -> outcome Relay.GenerateContentResponse)
    (req : Relay.VercelRequest) :
  (length (Relay.handler API_KEY generateContent req).1 <= 1)%nat
  /\ ((Relay.handler API_KEY generateContent req).1 = []
      \/ ((Relay.handler API_KEY generateContent req).1 = [Relay.GenerateContent (Relay.body req)]
          /\ Relay.method req = "POST" /\ Relay.key_missing API_KEY = false))
  /\ match (Relay.handler API_KEY generateContent req).2 with
     | Returned r =>
         Relay.statusCode r = 200%Z \/ Relay.statusCode r = 405%Z \/ Relay.statusCode r = 500%Z
     | Threw _ => True
     end.
Proof.
  unfold Relay.handler.
  destruct (String.eqb_spec (Relay.method req) "POST") as [Hpost|Hother]; simpl;
    [|split; [lia|split; [left; reflexivity|right; left; reflexivity]]].
  destruct (Relay.key_missing API_KEY); simpl;
    [split; [lia|split; [left; reflexivity|right; right; reflexivity]]|].
  destruct (Relay.read (Relay.body req) "ping") as [ping|e]; simpl;
    [|split; [lia|split; [left; reflexivity|exact I]]].
  destruct (truthy ping); simpl;
    [split; [lia|split; [left; reflexivity|left; reflexivity]]|].
  destruct (generateContent (Relay.body req)); simpl;
    (split; [lia|split; [right; auto|auto]]).
Qed.

(** ** The dispatcher, beyond the claims *)

Lemma array_some_absent (args : obj) (id : string) (invoices : list obj) :
  get args "id" = VStr id ->
  forallb string_id invoices = true ->
  existsb (has_id_ci id) invoices = false ->
  array_some (same_id args) invoices = Returned false.
Proof.
  intros Hid Hty Hno.
  now rewrite (array_some_find args), (array_find_absent args id Hid invoices Hty Hno).
Qed.

Lemma array_some_present (args : obj) (id : string) (invoices : list obj) :
  get args "id" = VStr id ->
  forallb string_id invoices = true ->
  existsb (has_id_ci id) invoices = true ->
  array_some (same_id args) invoices = Returned true.
Proof.
  intros Hid Hty Hex.
  destruct (array_find_present args id Hid invoices Hty Hex) as (orig & _ & _ & Hfind).
  now rewrite (array_some_find args), Hfind.
Qed.

Section DispatcherMore.
Variable env : Env.
Variable now : Z.

(** X7: a delete call whose id names a stored invoice up to letter case
    calls the store's delete operation once, with the id as the argument
    spells it (not as the store does); it returns the success echo when the
    awaited callback resolves, and raises the callback's exception when it
    rejects. *)
Theorem delete_passes_the_argument_id (store : event -> outcome unit)
    (invoices : list obj) (args : obj) (id : string) :
  get args "id" = VStr id ->
  forallb string_id invoices = true ->
  existsb (has_id_ci id) invoices = true ->
  executeFunctionCall_awaiting env store now invoices "deleteInvoice" args
  = ([DeleteInvoice (VStr id)],
     match store (DeleteInvoice (VStr id)) with
     | Returned _ => Returned (VObj {[ "success" := VBool true; "id" := VStr id ]})
     | Threw err => Threw err
     end).
Proof.
  intros Hid Hty Hex. unfold executeFunctionCall_awaiting, await_store. simpl.
  rewrite (array_some_present args id invoices Hid Hty Hex). simpl. rewrite Hid.
  now destruct (store _) as [[]|err].
Qed.

(** X8: a delete call whose id matches no stored invoice, even up to
    letter case, returns [{error: message}] and calls no store operation. *)
Theorem delete_of_unknown_id_is_an_error (invoices : list obj) (args : obj) (id : string) :
  get args "id" = VStr id ->
  forallb string_id invoices = true ->
  existsb (has_id_ci id) invoices = false ->
  executeFunctionCall env now invoices "deleteInvoice" args
  = ([], Returned (VObj {[ "error" := VStr ("Nota fiscal com ID " +:+ id
                                              +:+ " não encontrada.") ]})).
Proof.
  intros Hid Hty Hno. unfold executeFunctionCall. simpl.
  rewrite (array_some_absent args id invoices Hid Hty Hno). simpl.
  unfold not_found. now rewrite Hid.
Qed.

(** X9: a read call whose id matches no stored invoice, even up to letter
    case, returns [{error: message}], the message naming the id as the
    argument spells it. *)
Theorem read_of_unknown_id_is_an_error (invoices : list obj) (args : obj) (id : string) :
  get args "id" = VStr id ->
  forallb string_id invoices = true ->
  existsb (has_id_ci id) invoices = false ->
  executeFunctionCall env now invoices "getInvoiceDetails" args
  = ([], Returned (VObj {[ "error" := VStr ("Nota fiscal com ID " +:+ id
                                              +:+ " não encontrada.") ]})).
Proof.
  intros Hid Hty Hno. unfold executeFunctionCall. simpl.
  rewrite (array_find_absent args id Hid invoices Hty Hno). simpl.
  unfold not_found. now rewrite Hid.
Qed.

(** X10: a name that is not one of the five operations is answered with
    [{error: message}] naming it, whatever the arguments and the store, and
    no store operation is called. *)
Theorem unknown_function_is_an_error (invoices : list obj) (name : string) (args : obj) :
  name ∉ ["createInvoice"; "getInvoiceDetails"; "updateInvoice"; "deleteInvoice";
          "listInvoices"] ->
  executeFunctionCall env now invoices name args
  = ([], Returned (VObj {[ "error" := VStr ("Função desconhecida: " +:+ name) ]})).
Proof.
  intros Hname. unfold executeFunctionCall.
  repeat match goal with
         | |- context [String.eqb name ?known] =>
             destruct (String.eqb_spec name known) as [->|_];
               [exfalso; apply Hname; set_solver|]
         end.
  reflexivity.
Qed.

(** X11: whatever the name, the arguments and the store, one call of the
    dispatcher calls the store at most once, and only with the operation of
    its name: [createInvoice] adds, [updateInvoice] updates, [deleteInvoice]
    deletes; reading, listing and unknown names never call the store. *)
Theorem dispatch_calls_the_store_at_most_once (invoices : list obj) (name : string)
    (args : obj) :
  match (executeFunctionCall env now invoices name args).1 with
  | [] => True
  | [AddInvoice _] => name = "createInvoice"
  | [UpdateInvoice _] => name = "updateInvoice"
  | [DeleteInvoice _] => name = "deleteInvoice"
  | _ => False
  end.
Proof.
  unfold executeFunctionCall.
  destruct (String.eqb_spec name "createInvoice") as [->|_]; simpl.
  { now destruct (split_dash _). }
  destruct (String.eqb_spec name "getInvoiceDetails") as [->|_]; simpl.
  { now destruct (array_find _ _) as [[?|]|]. }
  destruct (String.eqb_spec name "updateInvoice") as [->|_]; simpl.
  { now destruct (array_find _ _) as [[?|]|]. }
  destruct (String.eqb_spec name "deleteInvoice") as [->|_]; simpl.
  { now destruct (array_some _ _) as [[|]|]. }
  destruct (String.eqb name "listInvoices"); simpl; [|exact I].
  now destruct (0 <? _)%nat.
Qed.

(** X12: a list call with a status filter that some invoice matches
    returns the summaries of exactly the invoices whose status is strictly
    equal to the filter, in the order of the store. *)
Theorem list_with_filter_returns_the_matches (invoices : list obj) (args : obj) :
  truthy (get args "status") = true ->
  existsb (fun inv => strict_eq (get inv "status") (get args "status")) invoices = true ->
  exists matches,
    executeFunctionCall env now invoices "listInvoices" args
    = ([], Returned (VArr ((fun inv => VObj (summary inv)) <$> matches)))
    /\ matches <> []
    /\ matches `sublist_of` invoices
    /\ forall inv, inv ∈ matches
                   <-> inv ∈ invoices
                       /\ strict_eq (get inv "status") (get args "status") = true.
Proof.
  intros Hfilter Hsome.
  set (P := fun inv : obj => strict_eq (get inv "status") (get args "status") = true).
  assert (Hne : filter P invoices <> []).
  { apply existsb_exists in Hsome as (inv & Hin & Hinv).
    intros Hnil. apply list_elem_of_In in Hin.
    assert (Hmem : inv ∈ filter P invoices) by (apply list_elem_of_filter; split; assumption).
    rewrite Hnil in Hmem. now apply not_elem_of_nil in Hmem. }
  exists (filter P invoices). split; [|split; [exact Hne|split]].
  - unfold executeFunctionCall. simpl. rewrite Hfilter. fold P.
    destruct (filter P invoices); [contradiction|reflexivity].
  - apply sublist_filter.
  - intros inv. rewrite list_elem_of_filter. unfold P. tauto.
Qed.

(** X13: a list call never returns an empty array: it returns either a
    message object, or a non-empty array with at most one summary per
    stored invoice; and it never raises nor calls the store. *)
Theorem list_never_returns_an_empty_array (invoices : list obj) (args : obj) :
  (executeFunctionCall env now invoices "listInvoices" args).1 = []
  /\ match (executeFunctionCall env now invoices "listInvoices" args).2 with
     | Returned (VArr items) => items <> [] /\ (length items <= length invoices)%nat
     | Returned (VObj answer) => exists text, answer = {[ "message" := VStr text ]}
     | _ => False
     end.
Proof.
  unfold executeFunctionCall. simpl.
  set (results := if truthy (get args "status") then _ else invoices).
  assert (Hlen : (length results <= length invoices)%nat).
  { unfold results. destruct (truthy _); [apply length_filter|lia]. }
  destruct results as [|inv rest]; simpl.
  - split; [reflexivity|]. eexists. reflexivity.
  - split; [reflexivity|]. split; [discriminate|].
    rewrite length_fmap. exact Hlen.
Qed.

End DispatcherMore.

Lemma delete_passes_the_argument_id_witness :
  executeFunctionCall_awaiting env0 resolving_store late_evening [stored] "deleteInvoice"
    {[ "id" := VStr "abc" ]}
  = ([DeleteInvoice (VStr "abc")],
     Returned (VObj {[ "success" := VBool true; "id" := VStr "abc" ]}))
  /\ executeFunctionCall_awaiting env0 rejecting_store late_evening [stored] "deleteInvoice"
       {[ "id" := VStr "abc" ]}
     = ([DeleteInvoice (VStr "abc")], Threw (Error "permission denied")).
Proof.
  split.
  - apply (delete_passes_the_argument_id env0 late_evening resolving_store [stored]
             {[ "id" := VStr "abc" ]} "abc"); reflexivity.
  - apply (delete_passes_the_argument_id env0 late_evening rejecting_store [stored]
             {[ "id" := VStr "abc" ]} "abc"); reflexivity.
Defined.

Lemma delete_of_unknown_id_is_an_error_witness :
  executeFunctionCall env0 late_evening [stored] "deleteInvoice" {[ "id" := VStr "xyz" ]}
  = ([], Returned (VObj {[ "error" := VStr "Nota fiscal com ID xyz não encontrada." ]})).
Proof.
  apply (delete_of_unknown_id_is_an_error env0 late_evening [stored]
           {[ "id" := VStr "xyz" ]} "xyz"); reflexivity.
Defined.

Lemma read_of_unknown_id_is_an_error_witness :
  executeFunctionCall env0 late_evening [stored; paid] "getInvoiceDetails"
    {[ "id" := VStr "P2" ]}
  = ([], Returned (VObj {[ "error" := VStr "Nota fiscal com ID P2 não encontrada." ]})).
Proof.
  apply (read_of_unknown_id_is_an_error env0 late_evening [stored; paid]
           {[ "id" := VStr "P2" ]} "P2"); reflexivity.
Defined.

Lemma unknown_function_is_an_error_witness :
  executeFunctionCall env0 late_evening [stored] "payInvoice" {[ "id" := VStr "AbC" ]}
  = ([], Returned (VObj {[ "error" := VStr "Função desconhecida: payInvoice" ]})).
Proof.
  apply (unknown_function_is_an_error env0 late_evening [stored] "payInvoice"
           {[ "id" := VStr "AbC" ]}).
  apply (bool_decide_unpack _). vm_compute. reflexivity.
Defined.

Lemma list_with_filter_returns_the_matches_witness :
  exists matches,
    executeFunctionCall env0 late_evening [stored; paid] "listInvoices"
      {[ "status" := VStr "Pago" ]}
    = ([], Returned (VArr ((fun inv => VObj (summary inv)) <$> matches)))
    /\ matches <> []
    /\ matches `sublist_of` [stored; paid]
    /\ forall inv, inv ∈ matches
                   <-> inv ∈ [stored; paid]
                       /\ strict_eq (get inv "status")
                            (get ({[ "status" := VStr "Pago" ]} : obj) "status") = true.
Proof.
  apply (list_with_filter_returns_the_matches env0 late_evening [stored; paid]
           {[ "status" := VStr "Pago" ]}); reflexivity.
Defined.

(** ** The record that [createInvoice] adds *)

Lemma is_digit_range (c : ascii) :
  is_digit c = true -> (48 <= Z.of_N (N_of_ascii c) <= 57)%Z.
Proof.
  unfold is_digit. intros [Hlo Hhi]%andb_prop.
  apply N.leb_le in Hlo, Hhi. lia.
Qed.

Lemma digit_is_not_dash (c : ascii) : is_digit c = true -> Ascii.eqb c "-" = false.
Proof.
  intros Hc. destruct (Ascii.eqb_spec c "-") as [->|]; [discriminate|reflexivity].
Qed.

Lemma decimal_value_nonneg (s : string) (acc : Z) :
  all_digits s = true -> (0 <= acc)%Z -> (0 <= decimal_value acc s)%Z.
Proof.
  revert acc. induction s as [|c rest IH]; simpl; intros acc Hs Hacc; [exact Hacc|].
  apply andb_prop in Hs as [Hc%is_digit_range Hrest].
  apply IH; [exact Hrest|lia].
Qed.

(** A string of digits is one part for [split('-')]. *)
Lemma split_on_digits (s : string) : all_digits s = true -> split_on "-" s = [s].
Proof.
  induction s as [|c rest IH]; simpl; [reflexivity|].
  intros [Hc Hrest]%andb_prop.
  now rewrite (digit_is_not_dash c Hc), (IH Hrest).
Qed.

(** A dash after a string of digits ends the first part. *)
Lemma split_on_digits_dash (a rest : string) :
  all_digits a = true ->
  split_on "-" (a +:+ "-" +:+ rest) = a :: split_on "-" rest.
Proof.
  induction a as [|c a' IH]; simpl; [reflexivity|].
  intros [Hc Ha']%andb_prop.
  now rewrite (digit_is_not_dash c Hc), (IH Ha').
Qed.

(** The day number of a date of our era stays far inside the range of
    time values. *)
Lemma days_from_civil_bounds (y m d : Z) :
  (100 <= y <= 9999)%Z -> (1 <= m <= 12)%Z -> (0 <= d <= 99)%Z ->
  (-700000 <= days_from_civil y m d <= 3000000)%Z.
Proof.
  intros Hy Hm Hd. unfold days_from_civil.
  destruct (m <=? 2)%Z, (2 <? m)%Z; Z.to_euclidean_division_equations; lia.
Qed.

Lemma MakeDay_of_month (y m d : Z) :
  (1 <= m <= 12)%Z -> MakeDay y (m - 1) d = days_from_civil y m d.
Proof.
  intros Hm. unfold MakeDay.
  replace ((m - 1) / 12)%Z with 0%Z by (symmetry; apply Z.div_small; lia).
  replace ((m - 1) mod 12)%Z with (m - 1)%Z by (symmetry; apply Z.mod_small; lia).
  unfold days_from_civil.
  replace (m - 1 + 1)%Z with m by lia. rewrite Z.add_0_r.
  destruct (m <=? 2)%Z, (2 <? m)%Z; lia.
Qed.

Section CreateInvoice.
Variable env : Env.
Variable now : Z.

(** X14: for a due date written as digits-dash-digits-dash-digits that
    names a month from 1 to 12 of a year from 100 to 9999, in a zone less
    than a day away from UTC, the record that [createInvoice] adds is
    Vencido exactly when the day of the due date lies before the local day of
    the call, and Pendente otherwise: a due date of today is not overdue. *)
Theorem createInvoice_status_compares_days (invoices : list obj) (args : obj)
    (ys ms ds : string) :
  get args "dueDate" = VStr (ys +:+ "-" +:+ ms +:+ "-" +:+ ds) ->
  all_digits ys = true -> all_digits ms = true -> all_digits ds = true ->
  (100 <= Number_digits ys <= 9999)%Z ->
  (1 <= Number_digits ms <= 12)%Z ->
  (Number_digits ds <= 99)%Z ->
  (Z.abs (tza env) <= msPerDay)%Z ->
  (0 <= now <= 8000000000000000)%Z ->
  exists record,
    (executeFunctionCall env now invoices "createInvoice" args).1 = [AddInvoice record]
    /\ get record "status"
       = VStr (if (days_from_civil (Number_digits ys) (Number_digits ms) (Number_digits ds)
                   <? local_day (tza env) now)%Z
               then Vencido env else Pendente env).
Proof.
  intros Hdue Hy Hm Hd Hyear Hmonth Hday Htza Hnow.
  rewrite (createInvoice_record env now invoices args _ Hdue).
  eexists. split; [reflexivity|].
  rewrite (split_on_digits_dash ys _ Hy), (split_on_digits_dash ms _ Hm),
    (split_on_digits ds Hd).
  pose proof (decimal_value_nonneg ds 0 Hd (Z.le_refl 0)) as Hd0.
  fold (Number_digits ds) in Hd0.
  pose proof (days_from_civil_bounds (Number_digits ys) (Number_digits ms) (Number_digits ds)
                Hyear Hmonth (conj Hd0 Hday)) as Hbound.
  assert (Hyr : (if ((0 <=? Number_digits ys) && (Number_digits ys <=? 99))%Z
                 then (1900 + Number_digits ys)%Z else Number_digits ys) = Number_digits ys).
  { destruct (Z.leb_spec (Number_digits ys) 99); [lia|]. now rewrite andb_false_r. }
  pose proof (due_before_today_by_day env now ys ms ds [] Hy Hm Hd) as Hcmp.
  cbv zeta in Hcmp. rewrite Hyr, (MakeDay_of_month _ _ _ Hmonth) in Hcmp.
  rewrite Hcmp; [reflexivity| |];
    unfold local_day, msPerDay in *; Z.to_euclidean_division_equations; lia.
Qed.

(** X15: a due date that is a string but not three parts separated by
    dashes (digits only, as in 20240131 or 2024-01) makes an Invalid Date,
    and the record is Pendente whatever the day of the call. *)
Theorem createInvoice_without_three_parts_is_pending (invoices : list obj) (args : obj)
    (due : string) :
  get args "dueDate" = VStr due ->
  forallb all_digits (split_on "-" due) = true ->
  (length (split_on "-" due) < 3)%nat ->
  exists record,
    (executeFunctionCall env now invoices "createInvoice" args).1 = [AddInvoice record]
    /\ get record "status" = VStr (Pendente env).
Proof.
  intros Hdue Hdigits Hshort.
  rewrite (createInvoice_record env now invoices args _ Hdue).
  eexists. split; [reflexivity|].
  assert (Hinvalid : Date_of_parts env (split_on "-" due) = None).
  { unfold Date_of_parts.
    destruct (split_on "-" due) as [|a [|b [|c rest]]]; simpl in *; try lia.
    - reflexivity.
    - now rewrite Hdigits.
    - now rewrite Hdigits. }
  now rewrite Hinvalid.
Qed.

(** X16: for any due date that is a string, [createInvoice] calls the
    store's add operation exactly once; it returns the success echo when the
    awaited callback resolves and raises the callback's exception when it
    rejects.  The record has the six fields clientName, amount, issueDate,
    dueDate, status and observations and no id; clientName, amount and
    dueDate are the arguments as given, without any check; the status is
    Vencido or Pendente, never another one; observations that are missing,
    null or empty are stored as the empty string. *)
Theorem createInvoice_record_shape (store : event -> outcome unit)
    (invoices : list obj) (args : obj) (due : string) :
  get args "dueDate" = VStr due ->
  exists record,
    executeFunctionCall_awaiting env store now invoices "createInvoice" args
    = ([AddInvoice record],
       match store (AddInvoice record) with
       | Returned _ =>
           Returned (VObj {[ "success" := VBool true;
                             "clientName" := get args "clientName";
                             "amount" := get args "amount" ]})
       | Threw err => Threw err
       end)
    /\ dom record = ({[ "clientName"; "amount"; "issueDate"; "dueDate"; "status";
                        "observations" ]} : gset string)
    /\ record !! "id" = None
    /\ get record "clientName" = get args "clientName"
    /\ get record "amount" = get args "amount"
    /\ get record "dueDate" = VStr due
    /\ (get record "status" = VStr (Vencido env) \/ get record "status" = VStr (Pendente env))
    /\ get record "observations"
       = (if truthy (get args "observations") then get args "observations" else VStr "").
Proof.
  intros Hdue. unfold executeFunctionCall_awaiting, await_store. simpl.
  rewrite Hdue. simpl.
  match goal with |- context [store (AddInvoice ?r)] => exists r end.
  split; [now destruct (store _) as [[]|err]|].
  repeat apply conj; try reflexivity.
  unfold get. simpl. destruct (date_lt _ _); [left|right]; reflexivity.
Qed.

End CreateInvoice.

Lemma createInvoice_status_compares_days_witness :
  exists record,
    (executeFunctionCall env0 late_evening [] "createInvoice"
       {[ "clientName" := VStr "Bia"; "amount" := VNum 30; "dueDate" := VStr "2023-12-31" ]}).1
    = [AddInvoice record]
    /\ get record "status"
       = VStr (if (days_from_civil (Number_digits "2023") (Number_digits "12")
                     (Number_digits "31")
                   <? local_day (tza env0) late_evening)%Z
               then Vencido env0 else Pendente env0).
Proof.
  apply (createInvoice_status_compares_days env0 late_evening []
           {[ "clientName" := VStr "Bia"; "amount" := VNum 30; "dueDate" := VStr "2023-12-31" ]}
           "2023" "12" "31");
    first [reflexivity | vm_compute; split; discriminate | vm_compute; discriminate].
Defined.

Lemma createInvoice_without_three_parts_is_pending_witness :
  exists record,
    (executeFunctionCall env0 late_evening [] "createInvoice"
       {[ "clientName" := VStr "Bia"; "amount" := VNum 30; "dueDate" := VStr "19990131" ]}).1
    = [AddInvoice record]
    /\ get record "status" = VStr (Pendente env0).
Proof.
  apply (createInvoice_without_three_parts_is_pending env0 late_evening []
           {[ "clientName" := VStr "Bia"; "amount" := VNum 30; "dueDate" := VStr "19990131" ]}
           "19990131"); [reflexivity | reflexivity | simpl; lia].
Defined.

Lemma createInvoice_record_shape_witness :
  exists record,
    executeFunctionCall_awaiting env0 rejecting_store late_evening [stored] "createInvoice" alice
    = ([AddInvoice record], Threw (Error "permission denied"))
    /\ record !! "id" = None
    /\ get record "dueDate" = VStr "2024-01-01"
    /\ get record "observations" = VStr "".
Proof.
  destruct (createInvoice_record_shape env0 late_evening rejecting_store [stored] alice
              "2024-01-01")
    as (record & Hrun & _ & Hid & _ & _ & Hdue & _ & Hobs); [reflexivity|].
  exists record. repeat apply conj; assumption.
Defined.

(** ** The orchestrator, beyond the claims *)

Section OrchestratorMore.
Variable env : Env.
Variable relay : string -> list Content -> outcome ProxyReply.
Variables (now : Z) (invoices : list obj).

(** The state left by an accepted request that ends with the exception
    [err]. *)
Lemma handleSend_failure (s : State) (log : list event) (err : exn) :
  refuses s = false ->
  converse env relay now invoices
    (toGeminiHistory env (messages s ++ [ {| role := "user"; text := input s |} ]))
  = (log, Threw err) ->
  handleSend env relay now invoices s
  = (log,
     {| messages := (messages s ++ [ {| role := "user"; text := input s |} ])
                    ++ [ {| role := "model";
                            text := message_or (t env "chatbot.errorMessage") err |} ];
        input := "";
        isLoading := false;
        error := Some (message_or (t env "chatbot.errorMessage") err) |}).
Proof. intros Hgo Hrun. unfold handleSend. now rewrite Hgo, Hrun. Qed.

(** X17: when the relay fails on the first request with an [Error] whose
    message is not empty, the request ends after that single relay call, the
    message is shown as the assistant turn after the user's message, and it
    is kept as the error of the component; from then on every send, whatever
    is typed and whatever the relay would answer, is refused: it sends
    nothing and changes nothing. *)
Theorem relay_failure_is_shown_and_blocks_sends (s : State) (invoiceList failure : string) :
  refuses s = false ->
  invoiceListForContext env invoices = Returned invoiceList ->
  relay (prompt env (utc_today now) invoiceList)
        (toGeminiHistory env (messages s ++ [ {| role := "user"; text := input s |} ]))
  = Threw (Error failure) ->
  failure <> "" ->
  let after := (handleSend env relay now invoices s).2 in
  (handleSend env relay now invoices s).1
  = [CallProxy (prompt env (utc_today now) invoiceList)
       (toGeminiHistory env (messages s ++ [ {| role := "user"; text := input s |} ]))]
  /\ messages after
     = messages s ++ [ {| role := "user"; text := input s |};
                       {| role := "model"; text := failure |} ]
  /\ error after = Some failure
  /\ forall relay' now' invoices' typed,
       let retry := {| messages := messages after; input := typed;
                       isLoading := isLoading after; error := error after |} in
       handleSend env relay' now' invoices' retry = ([], retry).
Proof.
  intros Hgo Hctx Hfail Hmsg after.
  assert (Hrun : handleSend env relay now invoices s
                 = ([CallProxy (prompt env (utc_today now) invoiceList)
                       (toGeminiHistory env
                          (messages s ++ [ {| role := "user"; text := input s |} ]))],
                    {| messages := (messages s ++ [ {| role := "user"; text := input s |} ])
                                   ++ [ {| role := "model"; text := failure |} ];
                       input := ""; isLoading := false; error := Some failure |})).
  { apply (handleSend_failure s _ (Error failure) Hgo).
    unfold converse. rewrite Hctx. simpl. now rewrite Hfail. }
  subst after. rewrite Hrun. simpl.
  split; [reflexivity|]. split; [now rewrite <- app_assoc|]. split; [reflexivity|].
  intros relay' now' invoices' typed. unfold handleSend, refuses. simpl.
  destruct (String.eqb_spec failure ""); [contradiction|].
  simpl. now rewrite orb_true_r.
Qed.

(** X18: an accepted request only appends to the message list: the
    user's message comes right after the messages already there, followed by
    at most one assistant message; the input is cleared and the component is
    no longer loading, however the request ends. *)
Theorem handleSend_only_appends (s : State) :
  refuses s = false ->
  exists answer,
    messages (handleSend env relay now invoices s).2
    = messages s ++ {| role := "user"; text := input s |} :: answer
    /\ (answer = [] \/ exists shown, answer = [ {| role := "model"; text := shown |} ])
    /\ input (handleSend env relay now invoices s).2 = ""
    /\ isLoading (handleSend env relay now invoices s).2 = false.
Proof.
  intros Hgo. unfold handleSend. rewrite Hgo.
  destruct (converse _ _ _ _ _) as [log [reply|err]]; simpl.
  - destruct (shown_text reply) as [shown|].
    + exists [ {| role := "model"; text := shown |} ].
      rewrite <- app_assoc. repeat split; eauto.
    + exists []. repeat split; auto.
  - eexists [ _ ]. rewrite <- app_assoc. repeat split; eauto.
Qed.

(** X19: the history built from the message list has one turn per message
    kept, in order, each made of the role and of one text part with the text
    of the message; the messages left out are exactly those whose text is
    the welcome text or the missing-key notice, whoever wrote them; when no
    message has such a text nothing is left out. *)
Theorem history_leaves_out_the_placeholders (msgs : list Message) :
  let placeholder (m : Message) :=
    text m = t env "chatbot.welcomeMessage" \/ text m = t env "chatbot.apiKeyMissing" in
  let turn (m : Message) := {| c_role := role m; c_parts := [PText (text m)] |} in
  (exists kept, toGeminiHistory env msgs = turn <$> kept
                /\ kept `sublist_of` msgs
                /\ forall m, m ∈ kept <-> m ∈ msgs /\ ~ placeholder m)
  /\ ((forall m, m ∈ msgs -> ~ placeholder m) -> toGeminiHistory env msgs = turn <$> msgs).
Proof.
  intros placeholder turn.
  set (keep := fun msg : Message =>
                 negb (String.eqb (text msg) (t env "chatbot.welcomeMessage"))
                 && negb (String.eqb (text msg) (t env "chatbot.apiKeyMissing"))).
  assert (Hkeep : forall m, keep m = true <-> ~ placeholder m).
  { intros m. unfold keep, placeholder.
    destruct (String.eqb_spec (text m) (t env "chatbot.welcomeMessage"));
      destruct (String.eqb_spec (text m) (t env "chatbot.apiKeyMissing")); simpl;
      split; intros; try discriminate; try reflexivity; tauto. }
  split.
  - exists (List.filter keep msgs). split; [reflexivity|]. split.
    + induction msgs as [|m rest IH]; simpl; [constructor|].
      destruct (keep m); [now apply sublist_skip|now apply sublist_cons].
    + intros m. rewrite !list_elem_of_In, filter_In, Hkeep. tauto.
  - intros Hnone. unfold toGeminiHistory. fold keep. f_equal.
    induction msgs as [|m rest IH]; simpl; [reflexivity|].
    assert (Hm : keep m = true) by (apply Hkeep, Hnone; left).
    rewrite Hm, IH; [reflexivity|]. intros m' Hin. apply Hnone. now right.
Qed.

Lemma context_lines_bad_amount (l : list obj) :
  existsb (fun inv => match get inv "amount" with VNum _ => false | _ => true end) l = true ->
  exists message, context_lines env l = Threw (Error message).
Proof.
  induction l as [|inv rest IH]; simpl; [discriminate|].
  intros Hbad. unfold context_line.
  destruct (get inv "amount") eqn:Hamount; simpl in *;
    try (eexists; reflexivity).
  destruct (IH Hbad) as [message ->]. eexists. reflexivity.
Qed.

(** X20: when a stored invoice has an amount that is not a number, every
    accepted request fails before anything is sent to the relay: no function
    call is dispatched, the message of the TypeError is shown as the
    assistant turn and kept as the error of the component. *)
Theorem invoice_without_numeric_amount_blocks_requests (s : State) :
  refuses s = false ->
  existsb (fun inv => match get inv "amount" with VNum _ => false | _ => true end) invoices
  = true ->
  exists message,
    handleSend env relay now invoices s
    = ([],
       {| messages := (messages s ++ [ {| role := "user"; text := input s |} ])
                      ++ [ {| role := "model"; text := message |} ];
          input := ""; isLoading := false; error := Some message |}).
Proof.
  intros Hgo Hbad.
  destruct (context_lines_bad_amount invoices Hbad) as [message Hlines].
  exists message.
  apply (handleSend_failure s [] (Error message) Hgo).
  unfold converse, invoiceListForContext. rewrite Hlines.
  destruct invoices; [discriminate|reflexivity].
Qed.





End OrchestratorMore.

Lemma relay_failure_is_shown_and_blocks_sends_witness :
  (handleSend env0 unreachable_relay late_evening [stored] asking).1
  = [CallProxy
       (prompt env0 (utc_today late_evening)
          "- ID: AbC, Cliente: Bob, Valor: R$ 5.00, Status: common.status.Pendente")
       (toGeminiHistory env0
          (messages asking ++ [ {| role := "user"; text := input asking |} ]))]
  /\ error (handleSend env0 unreachable_relay late_evening [stored] asking).2
     = Some "Failed to fetch".
Proof.
  destruct (relay_failure_is_shown_and_blocks_sends env0 unreachable_relay late_evening
              [stored] asking
              "- ID: AbC, Cliente: Bob, Valor: R$ 5.00, Status: common.status.Pendente"
              "Failed to fetch")
    as (Hlog & _ & Herror & _);
    [reflexivity | reflexivity | reflexivity | discriminate |].
  split; [exact Hlog | exact Herror].
Defined.

Lemma handleSend_only_appends_witness :
  exists answer,
    messages (handleSend env0 polite_relay late_evening [stored] asking).2
    = messages asking ++ {| role := "user"; text := input asking |} :: answer
    /\ (answer = [] \/ exists shown, answer = [ {| role := "model"; text := shown |} ])
    /\ input (handleSend env0 polite_relay late_evening [stored] asking).2 = ""
    /\ isLoading (handleSend env0 polite_relay late_evening [stored] asking).2 = false.
Proof.
  apply (handleSend_only_appends env0 polite_relay late_evening [stored] asking).
  reflexivity.
Defined.

Lemma invoice_without_numeric_amount_blocks_requests_witness :
  exists message,
    handleSend env0 polite_relay late_evening [stored; damaged] asking
    = ([],
       {| messages := (messages asking ++ [ {| role := "user"; text := input asking |} ])
                      ++ [ {| role := "model"; text := message |} ];
          input := ""; isLoading := false; error := Some message |}).
Proof.
  apply (invoice_without_numeric_amount_blocks_requests env0 polite_relay late_evening
           [stored; damaged] asking); reflexivity.
Defined.


(** ** The start-up probe *)

Section StartupFacts.
Variable env : Env.
Variable fetch : val -> outcome HttpResponse.

(** X23: the start-up check leaves the input as it is and the component
    not loading, and ends in one of three states: no error, with the
    welcome message when the list was empty and the list untouched
    otherwise; the missing-key notice as error and only message; or the
    generic error message as error and only message.  It ends in the first
    one for every answer whose status is not 500, and in the last one when
    the probe cannot be sent. *)
Theorem checkApiConfig_outcomes (s : State) :
  let after := checkApiConfig env fetch s in
  let notice (shown : string) :=
    messages after = [ {| role := "model"; text := shown |} ] /\ error after = Some shown in
  let healthy :=
    error after = None
    /\ messages after
       = (if (length (messages s) =? 0)%nat
          then [ {| role := "model"; text := t env "chatbot.welcomeMessage" |} ]
          else messages s) in
  input after = input s
  /\ isLoading after = false
  /\ (healthy \/ notice (t env "chatbot.apiKeyMissing") \/ notice (t env "chatbot.errorMessage"))
  /\ (forall res, fetch probe_body = Returned res -> status res <> 500%Z -> healthy)
  /\ (forall e, fetch probe_body = Threw e -> notice (t env "chatbot.errorMessage")).
Proof.
  intros after notice healthy. subst after notice healthy. unfold checkApiConfig.
  destruct (fetch probe_body) as [res|e] eqn:Hfetch; simpl.
  - assert (Hothers : forall P : Prop, (forall r, Returned res = Returned r ->
                                         status r <> 500%Z -> P)
                                       -> status res <> 500%Z -> P) by eauto.
    destruct (Z.eqb_spec (status res) 500) as [H500|Hok]; simpl.
    + destruct (payload res) as [data|e]; simpl;
        [destruct (Relay.read data "error") as [err|e]; simpl;
         [destruct (opt_includes err "API key not configured") as [found|e]; simpl;
          [destruct (truthy found); simpl|]|]|];
        (repeat apply conj; auto; try (intros; congruence);
         try (intros r [= <-] Hne; contradiction)).
    + repeat apply conj; auto; intros; congruence.
  - repeat apply conj; auto; intros; congruence.
Qed.

(** After the check has run on an empty list there is one message. *)
Lemma checkApiConfig_outcomes_messages (s : State) :
  (length (messages s) =? 0)%nat = true ->
  exists shown, messages (checkApiConfig env fetch s) = [ {| role := "model"; text := shown |} ].
Proof.
  intros Hempty. unfold checkApiConfig. rewrite Hempty.
  destruct (fetch probe_body) as [res|e]; simpl; [|eexists; reflexivity].
  destruct (status res =? 500)%Z; simpl; [|eexists; reflexivity].
  destruct (payload res) as [data|e]; simpl; [|eexists; reflexivity].
  destruct (Relay.read data "error") as [err|e]; simpl; [|eexists; reflexivity].
  destruct (opt_includes err "API key not configured") as [found|e]; simpl;
    [|eexists; reflexivity].
  destruct (truthy found); eexists; reflexivity.
Qed.

(** X24: the start-up effect runs its check once: after it has run the
    message list is not empty, so that running the effect again, even
    against a relay that answers differently, changes nothing. *)
Theorem startup_check_runs_once (fetch' : val -> outcome HttpResponse) (s : State) :
  startup_effect env fetch' (startup_effect env fetch s) = startup_effect env fetch s.
Proof.
  unfold startup_effect at 2 3.
  destruct (length (messages s) =? 0)%nat eqn:Hempty.
  - unfold startup_effect.
    assert (Hfull : (length (messages (checkApiConfig env fetch s)) =? 0)%nat = false).
    { destruct (checkApiConfig_outcomes_messages s Hempty) as [shown ->]. reflexivity. }
    now rewrite Hfull.
  - unfold startup_effect. now rewrite Hempty.
Qed.

End StartupFacts.

(** ** The relay and its callers together *)

Lemma probe_answer (API_KEY : option string)
    (generateContent : val -> outcome Relay.GenerateContentResponse) :
  (Relay.handler API_KEY generateContent {| Relay.method := "POST"; Relay.body := probe_body |}).2
  = Returned (if Relay.key_missing API_KEY
              then Relay.send 500 {[ "error" := VStr "API key not configured on server." ]}
              else Relay.send 200 {[ "status" := VStr "ok" ]}).
Proof. unfold Relay.handler. simpl. now destruct (Relay.key_missing API_KEY). Qed.

Section ProbeThroughRelay.
Variable env : Env.
Variable fetch : val -> outcome HttpResponse.
Variable API_KEY : option string.
Variable generateContent : val -> outcome Relay.GenerateContentResponse.
Variable answer : Relay.VercelResponse.

(** [fetch] delivers what the relay answers to the probe. *)
Hypothesis Hanswer :
  (Relay.handler API_KEY generateContent
     {| Relay.method := "POST"; Relay.body := probe_body |}).2 = Returned answer.
Hypothesis Hfetch : fetch probe_body = Returned (http_of answer).

(** X25: when the relay has no credential, the start-up check, whatever
    the messages before it, leaves the missing-key notice as the only message
    and as the error of the component; when the notice is not the empty
    string, every send is refused from then on, whatever is typed. *)
Theorem missing_credential_disables_the_chat (s : State) :
  Relay.key_missing API_KEY = true ->
  t env "chatbot.apiKeyMissing" <> "" ->
  checkApiConfig env fetch s
  = {| messages := [ {| role := "model"; text := t env "chatbot.apiKeyMissing" |} ];
       input := input s;
       isLoading := false;
       error := Some (t env "chatbot.apiKeyMissing") |}
  /\ forall relay now invoices typed,
       let blocked :=
         {| messages := [ {| role := "model"; text := t env "chatbot.apiKeyMissing" |} ];
            input := typed;
            isLoading := false;
            error := Some (t env "chatbot.apiKeyMissing") |} in
       handleSend env relay now invoices blocked = ([], blocked).
Proof.
  intros Hkey Hnotice.
  rewrite probe_answer, Hkey in Hanswer. injection Hanswer as <-.
  split.
  - unfold checkApiConfig. rewrite Hfetch. reflexivity.
  - intros relay now invoices typed. unfold handleSend, refuses. simpl.
    destruct (String.eqb_spec (t env "chatbot.apiKeyMissing") ""); [contradiction|].
    simpl. now rewrite orb_true_r.
Qed.

(** X26: when the relay has the credential, the start-up check on an
    empty message list leaves the welcome message, no error, and the
    component ready; the welcome message is not part of what is sent to the
    model: the history built for the first message typed, when that message
    is not itself one of the two placeholder texts, is the single turn of
    the user. *)
Theorem credential_present_welcomes (s : State) :
  Relay.key_missing API_KEY = false ->
  messages s = [] ->
  checkApiConfig env fetch s
  = {| messages := [ {| role := "model"; text := t env "chatbot.welcomeMessage" |} ];
       input := input s;
       isLoading := false;
       error := None |}
  /\ forall typed,
       typed <> t env "chatbot.welcomeMessage" ->
       typed <> t env "chatbot.apiKeyMissing" ->
       toGeminiHistory env
         (messages (checkApiConfig env fetch s) ++ [ {| role := "user"; text := typed |} ])
       = [ {| c_role := "user"; c_parts := [PText typed] |} ].
Proof.
  intros Hkey Hempty.
  rewrite probe_answer, Hkey in Hanswer. injection Hanswer as <-.
  assert (Hcheck : checkApiConfig env fetch s
                   = {| messages := [ {| role := "model";
                                         text := t env "chatbot.welcomeMessage" |} ];
                        input := input s; isLoading := false; error := None |}).
  { unfold checkApiConfig. rewrite Hfetch, Hempty. reflexivity. }
  split; [exact Hcheck|].
  intros typed Hwelcome Hnotice. rewrite Hcheck. unfold toGeminiHistory. simpl.
  rewrite String.eqb_refl. simpl.
  destruct (String.eqb_spec typed (t env "chatbot.welcomeMessage")); [contradiction|].
  destruct (String.eqb_spec typed (t env "chatbot.apiKeyMissing")); [contradiction|].
  reflexivity.
Qed.

End ProbeThroughRelay.

Lemma missing_credential_disables_the_chat_witness :
  checkApiConfig env0 (fetch_through None provider_down) fresh
  = {| messages := [ {| role := "model"; text := "chatbot.apiKeyMissing" |} ];
       input := ""; isLoading := false; error := Some "chatbot.apiKeyMissing" |}.
Proof.
  destruct (missing_credential_disables_the_chat env0 (fetch_through None provider_down)
              None provider_down
              (Relay.send 500 {[ "error" := VStr "API key not configured on server." ]})
              eq_refl eq_refl fresh) as [Hcheck _];
    [reflexivity | discriminate |].
  exact Hcheck.
Defined.

Lemma credential_present_welcomes_witness :
  checkApiConfig env0 (fetch_through (Some "secret") provider_down) fresh
  = {| messages := [ {| role := "model"; text := "chatbot.welcomeMessage" |} ];
       input := ""; isLoading := false; error := None |}.
Proof.
  destruct (credential_present_welcomes env0 (fetch_through (Some "secret") provider_down)
              (Some "secret") provider_down
              (Relay.send 200 {[ "status" := VStr "ok" ]})
              eq_refl eq_refl fresh) as [Hcheck _];
    [reflexivity | reflexivity |].
  exact Hcheck.
Defined.

(** ** The observation service *)

Lemma trim_start_blank (s : string) : blank s = true -> trim_start s = "".
Proof.
  induction s as [|c rest IH]; simpl; [reflexivity|].
  intros [Hc Hrest]%andb_prop. rewrite Hc. auto.
Qed.

(** The test [!input.trim()] of the chat and [trim] agree: an input is
    blank exactly when trimming leaves nothing. *)
Lemma blank_iff_trim_empty (s : string) : blank s = true <-> trim s = "".
Proof.
  unfold trim. split.
  - intros Hblank. now rewrite (trim_start_blank s Hblank).
  - induction s as [|c rest IH]; simpl; [reflexivity|].
    destruct (is_space c) eqn:Hc; simpl; [exact IH|].
    destruct (trim_end rest); [rewrite Hc|]; discriminate.
Qed.

Section ObservationFacts.
Variable config : val.
Variable fetch : val -> outcome HttpResponse.
Variables (clientName : string) (amount : Z) (service : string) (lang : Lang).

(** X27: the observation service never raises and sends one request; it
    returns the text of the answer, trimmed, when the answer has an OK
    status and a JSON object whose [text] is a string, and the fixed failure
    message of the language in every other case: a request that cannot be
    sent, a status outside 200..299 whatever its body, a body that is not
    JSON, or a [text] that is missing or not a string. *)
Theorem observation_is_the_trimmed_text_or_the_fallback :
  let request := observation_request config clientName amount service lang in
  let result := generateInvoiceObservation config fetch clientName amount service lang in
  (forall res data txt,
     fetch request = Returned res -> ok res = true ->
     payload res = Returned (VObj data) -> get data "text" = VStr txt ->
     result = trim txt)
  /\ (forall e, fetch request = Threw e -> result = generation_failed lang)
  /\ (forall res, fetch request = Returned res -> ok res = false ->
      result = generation_failed lang)
  /\ (forall res e, fetch request = Returned res -> payload res = Threw e ->
      result = generation_failed lang)
  /\ (forall res data, fetch request = Returned res -> payload res = Returned data ->
      (forall fields, data = VObj fields -> is_string (get fields "text") = false) ->
      result = generation_failed lang).
Proof.
  intros request result. subst request result. unfold generateInvoiceObservation.
  repeat apply conj.
  - intros res data txt -> Hok Hdata Htext. simpl.
    rewrite Hok, Hdata. simpl. now rewrite Htext.
  - now intros e ->.
  - intros res -> Hbad. simpl. rewrite Hbad. simpl.
    destruct (payload res) as [errorData|e]; simpl; [|reflexivity].
    now destruct (Relay.read errorData "error").
  - intros res e -> Hjson. simpl. rewrite Hjson.
    now destruct (ok res).
  - intros res data -> Hdata Hnotext. simpl. rewrite Hdata.
    destruct (ok res); simpl.
    + destruct data as [| | | | | |fields]; simpl; try reflexivity.
      specialize (Hnotext fields eq_refl).
      now destruct (get fields "text").
    + now destruct (Relay.read data "error").
Qed.

Section ThroughRelay.
Variable API_KEY : option string.
Variable generateContent : val -> outcome Relay.GenerateContentResponse.
Variable answer : Relay.VercelResponse.

(** [fetch] delivers what the relay answers to the request. *)
Hypothesis Hanswer :
  (Relay.handler API_KEY generateContent
     {| Relay.method := "POST";
        Relay.body := observation_request config clientName amount service lang |}).2
  = Returned answer.
Hypothesis Hfetch :
  fetch (observation_request config clientName amount service lang)
  = Returned (http_of answer).

Lemma observation_request_reaches_provider :
  Relay.key_missing API_KEY = false ->
  (Relay.handler API_KEY generateContent
     {| Relay.method := "POST";
        Relay.body := observation_request config clientName amount service lang |}).2
  = match generateContent (observation_request config clientName amount service lang) with
    | Returned response =>
        Returned (Relay.send 200
                    {[ "text" := Relay.text response;
                       "functionCalls" := Relay.functionCalls response;
                       "parts" := or_else (Relay.opt_read
                                             (Relay.opt_read
                                                (Relay.opt_first (Relay.candidates response))
                                                "content") "parts")
                                          (VArr []) ]})
    | Threw error =>
        Returned (Relay.send 500
                    {[ "error" :=
                         VStr (message_or "An error occurred while calling the Gemini API."
                                 error) ]})
    end.
Proof.
  intros Hkey. unfold Relay.handler. simpl. rewrite Hkey. simpl.
  now destruct (generateContent _).
Qed.

(** X28: through the relay, the observation service returns the text of
    the provider, trimmed, when the relay has the credential and the
    provider answers with a text. *)
Theorem observation_through_the_relay (response : Relay.GenerateContentResponse)
    (said : string) :
  Relay.key_missing API_KEY = false ->
  generateContent (observation_request config clientName amount service lang)
  = Returned response ->
  Relay.text response = VStr said ->
  generateInvoiceObservation config fetch clientName amount service lang = trim said.
Proof.
  intros Hkey Hreply Htext.
  rewrite (observation_request_reaches_provider Hkey), Hreply in Hanswer.
  injection Hanswer as <-.
  unfold generateInvoiceObservation. rewrite Hfetch. simpl.
  unfold get. rewrite lookup_omap, lookup_insert_eq, Htext. reflexivity.
Qed.

(** X29: through the relay, the observation service returns the failure
    message of the language when the relay has no credential, and when the
    provider fails; the error that the relay reports is not shown. *)
Theorem observation_fails_quietly_through_the_relay :
  (Relay.key_missing API_KEY = true
   \/ (Relay.key_missing API_KEY = false
       /\ exists failure,
            generateContent (observation_request config clientName amount service lang)
            = Threw failure)) ->
  generateInvoiceObservation config fetch clientName amount service lang
  = generation_failed lang.
Proof.
  intros [Hkey|[Hkey [failure Hfail]]].
  - unfold Relay.handler in Hanswer. simpl in Hanswer. rewrite Hkey in Hanswer.
    injection Hanswer as <-.
    unfold generateInvoiceObservation. now rewrite Hfetch.
  - rewrite (observation_request_reaches_provider Hkey), Hfail in Hanswer.
    injection Hanswer as <-.
    unfold generateInvoiceObservation. now rewrite Hfetch.
Qed.

End ThroughRelay.
End ObservationFacts.

Lemma observation_is_the_trimmed_text_or_the_fallback_witness :
  generateInvoiceObservation no_config (fetch_through (Some "secret") (provider_says " Pago. "))
    "Bob" 5 "consultoria" pt
  = "Pago."
  /\ generateInvoiceObservation no_config (fetch_through None (provider_says " Pago. "))
       "Bob" 5 "consultoria" en
     = "Error generating observation. Please try again.".
Proof.
  destruct (observation_is_the_trimmed_text_or_the_fallback no_config
              (fetch_through (Some "secret") (provider_says " Pago. "))
              "Bob" 5 "consultoria" pt) as (Htext & _).
  destruct (observation_is_the_trimmed_text_or_the_fallback no_config
              (fetch_through None (provider_says " Pago. "))
              "Bob" 5 "consultoria" en) as (_ & _ & Hbad & _).
  split.
  - now rewrite (Htext _ _ " Pago. " eq_refl eq_refl eq_refl eq_refl).
  - now rewrite (Hbad _ eq_refl eq_refl).
Defined.

Lemma observation_through_the_relay_witness :
  generateInvoiceObservation no_config (fetch_through (Some "secret") (provider_says " Pago. "))
    "Bob" 5 "consultoria" pt
  = "Pago.".
Proof.
  apply (observation_through_the_relay no_config
           (fetch_through (Some "secret") (provider_says " Pago. "))
           "Bob" 5 "consultoria" pt (Some "secret") (provider_says " Pago. ")
           (Relay.send 200 {[ "text" := VStr " Pago. "; "functionCalls" := VUndefined;
                              "parts" := VArr [] ]})
           eq_refl eq_refl
           {| Relay.text := VStr " Pago. "; Relay.functionCalls := VUndefined;
              Relay.candidates := VUndefined |}
           " Pago. ");
    reflexivity.
Defined.

Lemma observation_fails_quietly_through_the_relay_witness :
  generateInvoiceObservation no_config (fetch_through (Some "secret") provider_down)
    "Bob" 5 "consultoria" en
  = "Error generating observation. Please try again.".
Proof.
  apply (observation_fails_quietly_through_the_relay no_config
           (fetch_through (Some "secret") provider_down)
           "Bob" 5 "consultoria" en (Some "secret") provider_down
           (Relay.send 500 {[ "error" := VStr "fetch failed" ]})
           eq_refl eq_refl).
  right. split; [reflexivity|]. eexists. reflexivity.
Defined.
